(** * dmarc_reporter: the report ingestion core of [main.py]

    A shallow embedding of [DmarcStatistics] ([__init__], [parse_metadata],
    [parse_records]), of [parse_report], [dump_gz] and [dump_zip] and of the
    loop of [main] over messages and parts, with the properties the
    specification states about them and further properties of the code.

    Python values are modelled as follows.
    - [str] is [string], the sequence of its characters; the program only
      compares, concatenates, searches and slices strings, which does not
      depend on the alphabet.  [None] where a [str] is expected is
      [option string].
    - [int] is [Z] (unbounded).
    - An exception that leaves a function is [Raise e]; a normal return is
      [Ok v].
    - A [dict] is an association list in insertion order with unique keys:
      [items()] is the list itself, which [spfinfo] and [dkiminfo] expose.
    - An [Element] is its tag, its text and its children.
    - The iterator returned by [iterparse] is the list of the steps it has
      still to take: every [next()] pops the head. *)

From Stdlib Require Import ZArith List String Ascii Bool Lia DecimalString.
Import ListNotations.

Local Open Scope list_scope.
Local Open Scope string_scope.

(* ===================================================================== *)
(** ** Exceptions and results *)
(* ===================================================================== *)

(** The exception classes the program can meet.  [TypeError], [ValueError],
    [AttributeError] and [KeyError] are raised by the interpreter on the
    program's own expressions; [ParseError] is
    [defusedxml.ElementTree.ParseError]; [OtherError cls] is any further class
    a library below the program raises ([EOFError], [OSError],
    [BadZipFile], [OverflowError], ...). *)
Inductive exception : Type :=
| TypeError
| ValueError
| AttributeError
| KeyError
| ParseError (msg : string)
| OtherError (cls : string).

Definition class_of (e : exception) : string :=
  match e with
  | TypeError => "TypeError"
  | ValueError => "ValueError"
  | AttributeError => "AttributeError"
  | KeyError => "KeyError"
  | ParseError _ => "ParseError"
  | OtherError cls => cls
  end.

Inductive result (A : Type) : Type :=
| Ok (a : A)
| Raise (e : exception).

Arguments Ok {A} a.
Arguments Raise {A} e.

Definition bind {A B : Type} (m : result A) (k : A -> result B) : result B :=
  match m with
  | Ok a => k a
  | Raise e => Raise e
  end.

Declare Scope py_scope.
Delimit Scope py_scope with py.
Notation "x <- m ;; k" := (bind m (fun x => k))
  (at level 61, m at next level, right associativity) : py_scope.
Notation "' p <- m ;; k" := (bind m (fun x => let p := x in k))
  (at level 61, p pattern, m at next level, right associativity) : py_scope.
Local Open Scope py_scope.

(** [try: body  except cls: handler] for a handler that does not use the
    exception object.  Only the class named in the clause is caught. *)
Definition try_except {A : Type} (body : result A) (cls : string)
  (handler : result A) : result A :=
  match body with
  | Ok a => Ok a
  | Raise e => if String.eqb (class_of e) cls then handler else Raise e
  end.

(* ===================================================================== *)
(** ** Strings *)
(* ===================================================================== *)

Definition option_str_eqb (a b : option string) : bool :=
  match a, b with
  | Some x, Some y => String.eqb x y
  | None, None => true
  | _, _ => false
  end.

(** [s[n:]] for [0 <= n]. *)
Fixpoint str_drop (n : nat) (s : string) : string :=
  match n, s with
  | O, _ => s
  | S n', String _ s' => str_drop n' s'
  | S _, EmptyString => EmptyString
  end.

(** [s.startswith(p)]. *)
Definition startswith (s p : string) : bool := String.prefix p s.

(** [sub in s]: [sub] occurs in [s] as a substring. *)
Fixpoint str_in (sub s : string) : bool :=
  String.prefix sub s ||
  match s with
  | EmptyString => false
  | String _ s' => str_in sub s'
  end.

(** [s.split(sep, 1)] for a non-empty separator: the list [[s]] when [sep]
    does not occur, and the two pieces around its first occurrence
    otherwise. *)
Fixpoint split_1 (sep s : string) : list string :=
  if String.prefix sep s then [""; str_drop (String.length sep) s]
  else match s with
       | EmptyString => [""]
       | String c s' =>
           match split_1 sep s' with
           | hd :: tl => String c hd :: tl
           | [] => []
           end
       end.

(** [str(v)] for an [int]. *)
Definition str_of_int (v : Z) : string := NilZero.string_of_int (Z.to_int v).

(** [sep.join(l)]. *)
Definition join (sep : string) (l : list string) : string := String.concat sep l.

(* ===================================================================== *)
(** ** Dictionaries keyed by a result label

    The key is what [findtext('result')] returned, so it can be [None]. *)
(* ===================================================================== *)

Definition dict : Type := list (option string * Z).

(** [k in d]. *)
Fixpoint dict_contains (k : option string) (d : dict) : bool :=
  match d with
  | [] => false
  | (k', _) :: d' => option_str_eqb k k' || dict_contains k d'
  end.

(** [d[k]]; [None] stands for [KeyError]. *)
Fixpoint dict_getitem (k : option string) (d : dict) : option Z :=
  match d with
  | [] => None
  | (k', v) :: d' => if option_str_eqb k k' then Some v else dict_getitem k d'
  end.

(** [d[k] = v]: a present key keeps its place, a new key goes last. *)
Fixpoint dict_setitem (k : option string) (v : Z) (d : dict) : dict :=
  match d with
  | [] => [(k, v)]
  | (k', v') :: d' =>
      if option_str_eqb k k' then (k', v) :: d'
      else (k', v') :: dict_setitem k v d'
  end.

(** The number a table reports for a label: its entry, and 0 without one. *)
Definition dict_count (k : option string) (d : dict) : Z :=
  match dict_getitem k d with
  | Some v => v
  | None => 0%Z
  end.

(* ===================================================================== *)
(** ** ElementTree *)
(* ===================================================================== *)

#[local] Unset Elimination Schemes.
Inductive Element : Type :=
  mkElement { tag : string; text : option string; children : list Element }.
#[local] Set Elimination Schemes.

(** The children of [e] with tag [t], in document order. *)
Definition children_tagged (t : string) (e : Element) : list Element :=
  filter (fun c => String.eqb (tag c) t) (children e).

(** [e.iterfind(path)] for a path [t1/t2/.../tn] of plain tag names, given
    as the list of its steps: step by step, the children with that tag of
    every element selected so far. *)
Fixpoint iterfind (path : list string) (e : Element) : list Element :=
  match path with
  | [] => [e]
  | t :: path' => flat_map (iterfind path') (children_tagged t e)
  end.

Definition findall (e : Element) (path : list string) : list Element :=
  iterfind path e.

(** [e.find(path)]: the first match or [None]. *)
Definition find (e : Element) (path : list string) : option Element :=
  match iterfind path e with
  | [] => None
  | x :: _ => Some x
  end.

(** [e.findtext(path)]: [None] without a match, the empty string for a
    match without text. *)
Definition findtext (e : Element) (path : list string) : option string :=
  match find e path with
  | None => None
  | Some x => match text x with
              | None => Some ""
              | Some t => Some t
              end
  end.

(** [x.attr] on the value of [find]: [AttributeError] on [None]. *)
Definition getattr {A : Type} (x : option Element) (attr : Element -> A)
  : result A :=
  match x with
  | None => Raise AttributeError
  | Some e => Ok (attr e)
  end.

(** One step of the iterator [iterparse] returns: it yields an
    [(event, elem)] pair, or the read or the XML parser raises. *)
Inductive step : Type :=
| Yield (event : string) (elem : Element)
| Raises (e : exception).

(** The closed elements of a document in the order their end tags are
    read: children before their parent, siblings left to right. *)
Fixpoint end_order (e : Element) : list Element :=
  match e with
  | mkElement _ _ cs => (flat_map end_order cs ++ [e])%list
  end.

(** [iterparse(fobj, events=('end',))] on a well-formed document that is
    read without a fault. *)
Definition iterparse (doc : Element) : list step :=
  map (Yield "end") (end_order doc).

(** The number of elements with tag [t] in a document, the root included. *)
Fixpoint count_elements (t : string) (e : Element) : nat :=
  match e with
  | mkElement tg _ cs =>
      (if String.eqb tg t then 1 else 0)
      + list_sum (map (count_elements t) cs)
  end.

(** Induction over a document: a property of the children is a property
    of every one of them. *)
Fixpoint Element_induction (P : Element -> Prop)
  (node : forall tg tx cs, Forall P cs -> P (mkElement tg tx cs))
  (e : Element) : P e :=
  match e with
  | mkElement tg tx cs =>
      node tg tx cs
        ((fix all (l : list Element) : Forall P l :=
            match l with
            | [] => Forall_nil P
            | c :: l' =>
                Forall_cons c (Element_induction P node c) (all l')
            end) cs)
  end.

(* ===================================================================== *)
(** ** The program *)
(* ===================================================================== *)

(** The object under construction.  [organisation], [report_id], [start],
    [end] and [domain] are class attributes with the default [None];
    [end_] stands for [end]. *)
Record DmarcStatistics : Type := mkDmarcStatistics {
  organisation : option string;
  report_id : option string;
  start : option string;
  end_ : option string;
  domain : option string;
  passed : Z;
  failed : Z;
  spfresult : dict;
  dkimresult : dict;
  spfinfo : string;
  dkiminfo : string
}.

(** The instance before [__init__] has assigned anything. *)
Definition new_instance : DmarcStatistics :=
  {| organisation := None; report_id := None; start := None; end_ := None;
     domain := None; passed := 0; failed := 0; spfresult := [];
     dkimresult := []; spfinfo := ""; dkiminfo := "" |}.

Definition set_metadata (self : DmarcStatistics)
  (org rid st en : option string) : DmarcStatistics :=
  {| organisation := org; report_id := rid; start := st; end_ := en;
     domain := domain self; passed := passed self; failed := failed self;
     spfresult := spfresult self; dkimresult := dkimresult self;
     spfinfo := spfinfo self; dkiminfo := dkiminfo self |}.

Definition set_domain (self : DmarcStatistics) (d : option string)
  : DmarcStatistics :=
  {| organisation := organisation self; report_id := report_id self;
     start := start self; end_ := end_ self;
     domain := d; passed := passed self; failed := failed self;
     spfresult := spfresult self; dkimresult := dkimresult self;
     spfinfo := spfinfo self; dkiminfo := dkiminfo self |}.

Definition set_report_id (self : DmarcStatistics) (rid : option string)
  : DmarcStatistics :=
  {| organisation := organisation self; report_id := rid;
     start := start self; end_ := end_ self;
     domain := domain self; passed := passed self; failed := failed self;
     spfresult := spfresult self; dkimresult := dkimresult self;
     spfinfo := spfinfo self; dkiminfo := dkiminfo self |}.

Definition set_counters (self : DmarcStatistics) (p f : Z) (spf dkim : dict)
  : DmarcStatistics :=
  {| organisation := organisation self; report_id := report_id self;
     start := start self; end_ := end_ self;
     domain := domain self; passed := p; failed := f;
     spfresult := spf; dkimresult := dkim;
     spfinfo := spfinfo self; dkiminfo := dkiminfo self |}.

Definition set_info (self : DmarcStatistics) (si di : string)
  : DmarcStatistics :=
  {| organisation := organisation self; report_id := report_id self;
     start := start self; end_ := end_ self;
     domain := domain self; passed := passed self; failed := failed self;
     spfresult := spfresult self; dkimresult := dkimresult self;
     spfinfo := si; dkiminfo := di |}.

(** Lines 62-67 of [__init__]: the clean-up of the report id, on the values
    [parse_metadata] left in [self.report_id] and [self.organisation]. *)
Definition normalize (report_id organisation : option string)
  : result string :=
  (* "@" in self.report_id *)
  rid <- match report_id with
         | None => Raise TypeError
         | Some r => Ok r
         end ;;
  rid <- (if str_in "@" rid
          then match split_1 "@" rid with
               | [before; _] => Ok before
               | _ => Raise ValueError
               end
          else Ok rid) ;;
  (* self.organisation + '.' *)
  org <- match organisation with
         | None => Raise TypeError
         | Some org => Ok org
         end ;;
  if startswith rid (org ++ ".")
  then Ok (str_drop (String.length org + 1) rid)
  else Ok rid.

(** [k + "=" + str(v)] over [d.items()], joined by [", "]; a key [None]
    makes [k + "="] a [TypeError]. *)
Fixpoint info_items (d : dict) : result (list string) :=
  match d with
  | [] => Ok []
  | (k, v) :: d' =>
      x <- match k with
           | None => Raise TypeError
           | Some k => Ok (k ++ "=" ++ str_of_int v)
           end ;;
      xs <- info_items d' ;;
      Ok (x :: xs)
  end.

Definition info (d : dict) : result string :=
  xs <- info_items d ;; Ok (join ", " xs).

(** Lines 115-118 and 125-128: count one more occurrence of label [k]. *)
Definition tally (k : option string) (d : dict) : result dict :=
  if negb (dict_contains k d)
  then Ok (dict_setitem k 1 d)
  else match dict_getitem k d with
       | Some n => Ok (dict_setitem k (n + 1) d)
       | None => Raise KeyError
       end.

(** Lines 110-118 and 120-128: the loop over the sub-results of one
    mechanism; a sub-result whose domain is not [self.domain] is skipped. *)
Fixpoint tally_results (self_domain : option string) (elems : list Element)
  (d : dict) : result dict :=
  match elems with
  | [] => Ok d
  | el :: elems' =>
      let eldomain := findtext el ["domain"] in
      if negb (option_str_eqb eldomain self_domain)
      then tally_results self_domain elems' d
      else
        d' <- tally (findtext el ["result"]) d ;;
        tally_results self_domain elems' d'
  end.

(** [event == 'end' and elem.tag == t]. *)
Definition is_end_of (t : string) (event : string) (elem : Element) : bool :=
  String.eqb event "end" && String.eqb (tag elem) t.

(** The two library calls whose value the program text does not fix:
    [py_int s] is [int(s)] on a [str], with [None] for [ValueError];
    [fromtimestamp_isoformat t] is
    [datetime.datetime.fromtimestamp(t).isoformat()], which depends on the
    local time zone of the process and raises for a [t] outside the range
    of the platform. *)
Class Runtime : Type := {
  py_int : string -> option Z;
  fromtimestamp_isoformat : Z -> result string
}.

Section Program.

Context {runtime : Runtime}.

(** [int(x)] where [x] may be [None]. *)
Definition int (x : option string) : result Z :=
  match x with
  | None => Raise TypeError
  | Some s => match py_int s with
              | Some z => Ok z
              | None => Raise ValueError
              end
  end.

(** Lines 84-87 and 88-91. *)
Definition timestamp (elem : Element) (path : list string)
  : result (option string) :=
  try_except
    (t <- int (findtext elem path) ;;
     s <- fromtimestamp_isoformat t ;;
     Ok (Some s))
    "TypeError"
    (Ok None).

(** Lines 82-91: the body of the first [if] of [parse_metadata]. *)
Definition read_report_metadata (self : DmarcStatistics) (elem : Element)
  : result DmarcStatistics :=
  let org := findtext elem ["org_name"] in
  let rid := findtext elem ["report_id"] in
  st <- timestamp elem ["date_range"; "begin"] ;;
  en <- timestamp elem ["date_range"; "end"] ;;
  Ok (set_metadata self org rid st en).

(** [parse_metadata]: the object and the iterator as the loop leaves
    them. *)
Fixpoint parse_metadata (self : DmarcStatistics) (xmlctx : list step)
  : result (DmarcStatistics * list step) :=
  match xmlctx with
  | [] => Ok (self, [])
  | Raises e :: _ => Raise e
  | Yield event elem :: xmlctx' =>
      self <- (if is_end_of "report_metadata" event elem
               then read_report_metadata self elem
               else Ok self) ;;
      if is_end_of "policy_published" event elem
      then Ok (set_domain self (findtext elem ["domain"]), xmlctx')
      else parse_metadata self xmlctx'
  end.

(** Lines 99-128: the body of the [if] of [parse_records]. *)
Definition aggregate_record (self : DmarcStatistics) (record : Element)
  : result DmarcStatistics :=
  let policy := find record ["row"; "policy_evaluated"] in
  source <- getattr (find record ["row"; "source_ip"]) text ;;
  count <- (t <- getattr (find record ["row"; "count"]) text ;; int t) ;;
  dkim_verdict <- getattr policy (fun p => findtext p ["dkim"]) ;;
  ok <- (if option_str_eqb dkim_verdict (Some "pass") then Ok true
         else
           spf_verdict <- getattr policy (fun p => findtext p ["spf"]) ;;
           Ok (option_str_eqb spf_verdict (Some "pass"))) ;;
  let p := if ok : bool then (passed self + 1)%Z else passed self in
  let f := if ok : bool then failed self else (failed self + 1)%Z in
  dkim <- tally_results (domain self)
            (findall record ["auth_results"; "dkim"]) (dkimresult self) ;;
  spf <- tally_results (domain self)
            (findall record ["auth_results"; "spf"]) (spfresult self) ;;
  Ok (set_counters self p f spf dkim).

(** [parse_records]: it runs the iterator to its end. *)
Fixpoint parse_records (self : DmarcStatistics) (xmlctx : list step)
  : result DmarcStatistics :=
  match xmlctx with
  | [] => Ok self
  | Raises e :: _ => Raise e
  | Yield event elem :: xmlctx' =>
      self <- (if is_end_of "record" event elem
               then aggregate_record self elem
               else Ok self) ;;
      parse_records self xmlctx'
  end.

(** [DmarcStatistics(xmlctx)]. *)
Definition init (xmlctx : list step) : result DmarcStatistics :=
  '(self, xmlctx) <- parse_metadata new_instance xmlctx ;;
  rid <- normalize (report_id self) (organisation self) ;;
  let self := set_report_id self (Some rid) in
  let self := set_counters self 0 0 [] [] in
  self <- parse_records self xmlctx ;;
  si <- info (spfresult self) ;;
  di <- info (dkimresult self) ;;
  Ok (set_info self si di).

(** What [print] wrote: the report ([str(report)], whose text is the
    template filled with the fields of the object) or the error line
    ["Error parsing XML: '{}'"] with the message of the exception. *)
Inductive printed : Type :=
| Report (report : DmarcStatistics)
| ErrorLine (msg : string).

(** A run of a function that prints: the lines it wrote, in order, and the
    exception that left it, if one did. *)
Definition run : Type := (list printed * option exception)%type.

(** [parse_report(fobj)], on the iterator [iterparse] returns for
    [fobj]; reading [fobj] happens inside the iteration. *)
Definition parse_report (xmlctx : list step) : run :=
  match init xmlctx with
  | Ok report => ([Report report], None)
  | Raise (ParseError msg) =>
      ([ErrorLine ("Error parsing XML: '" ++ msg ++ "'")], None)
  | Raise e => ([], Some e)
  end.

(** [dump_gz(gzdata)]: [gzip.open] decompresses nothing before the
    first read, so every fault of the payload is a step of the
    iterator, here the argument. *)
Definition dump_gz (xmlctx : list step) : run := parse_report xmlctx.

(** The loop of [dump_zip]: [archive.open(info)] can raise for an entry,
    and the first exception that is not handled ends the loop; what the
    earlier entries printed stays printed. *)
Fixpoint dump_entries (entries : list (result (list step))) : run :=
  match entries with
  | [] => ([], None)
  | Raise e :: _ => ([], Some e)
  | Ok xmlctx :: entries' =>
      match parse_report xmlctx with
      | (out, Some e) => (out, Some e)
      | (out, None) =>
          let (outs, exc) := dump_entries entries' in ((out ++ outs)%list, exc)
      end
  end.

(** [dump_zip(zipdata)]: the argument is what [zipfile.ZipFile] makes of
    the payload, an exception or the entries of [infolist()]. *)
Definition dump_zip (archive : result (list (result (list step)))) : run :=
  match archive with
  | Raise e => ([], Some e)
  | Ok entries => dump_entries entries
  end.

End Program.

(* ===================================================================== *)
(** ** The mailbox loop *)
(* ===================================================================== *)

Definition CONTENT_ZIP : list string :=
  ["application/zip"; "application/x-zip-compressed"].
Definition CONTENT_GZIP : list string := ["application/gzip"].
Definition CONTENT_IGNORE : list string :=
  ["multipart/mixed"; "text/html"; "text/plain"].

(** [x in l] for a list [l] of [str]. *)
Definition in_list (x : string) (l : list string) : bool :=
  existsb (String.eqb x) l.

(** A part of a message as [main] uses it: [get_content_type()], and the
    decoded payload [get_payload(decode=True)] as the two readers see it,
    [as_zip] what [zipfile.ZipFile] makes of it (the argument of
    [dump_zip]) and [as_gzip] the iterator over [gzip.open] of it (the
    argument of [dump_gz]). *)
Record part : Type := mkPart {
  content_type : string;
  as_zip : result (list (result (list step)));
  as_gzip : list step
}.

(** A line on the console: one that [parse_report] printed, or
    ["Unknown content type '{}'"] with the content type. *)
Inductive console : Type :=
| Printed (line : printed)
| UnknownContentType (ct : string).

Definition console_run : Type := (list console * option exception)%type.

Definition on_console (r : run) : console_run := (map Printed (fst r), snd r).

Section Mailbox.

Context {runtime : Runtime}.

(** Lines 161-169: one turn of the loop over [msg.walk()]. *)
Definition dump_part (p : part) : console_run :=
  if in_list (content_type p) CONTENT_ZIP
  then on_console (dump_zip (as_zip p))
  else if in_list (content_type p) CONTENT_GZIP
  then on_console (dump_gz (as_gzip p))
  else if in_list (content_type p) CONTENT_IGNORE
  then ([], None)
  else ([UnknownContentType (content_type p)], None).

(** Lines 160-169: the loop over the parts of one message; an exception
    ends it. *)
Fixpoint walk (parts : list part) : console_run :=
  match parts with
  | [] => ([], None)
  | p :: parts' =>
      match dump_part p with
      | (out, Some e) => (out, Some e)
      | (out, None) =>
          let (outs, exc) := walk parts' in ((out ++ outs)%list, exc)
      end
  end.

(** Lines 157-169 of [main]: the loop over the messages the search found,
    each given as the parts [msg.walk()] yields.  (The calls to the IMAP
    server before and inside the loop are not modelled: the messages
    are the input.) *)
Fixpoint main_loop (messages : list (list part)) : console_run :=
  match messages with
  | [] => ([], None)
  | parts :: messages' =>
      match walk parts with
      | (out, Some e) => (out, Some e)
      | (out, None) =>
          let (outs, exc) := main_loop messages' in ((out ++ outs)%list, exc)
      end
  end.

End Mailbox.

(* ===================================================================== *)
(** ** The vocabulary of the specification *)
(* ===================================================================== *)

(** *** Identity normalisation, in the words of the specification *)

(** The id contains no ["@"]. *)
Definition no_at (s : string) : Prop := forall a b, s <> a ++ "@" ++ b.

(** Step 1: an id with an ["@"] is cut at the first one, which is dropped
    with all that follows; another id is kept. *)
Inductive cut_at_first_at : string -> string -> Prop :=
| cut_at a b : no_at a -> cut_at_first_at (a ++ "@" ++ b) a
| cut_none s : no_at s -> cut_at_first_at s s.

(** Step 2: an id that starts with [organisation + "."] loses that prefix;
    another id is kept. *)
Inductive strip_org_prefix (org : string) : string -> string -> Prop :=
| strip_prefix t : strip_org_prefix org (org ++ "." ++ t) t
| strip_none s : (forall t, s <> org ++ "." ++ t) -> strip_org_prefix org s s.

(** *** The sections of the event stream *)

Definition is_record_end (st : step) : bool :=
  match st with
  | Yield event elem => is_end_of "record" event elem
  | Raises _ => false
  end.

Definition is_policy_end (st : step) : bool :=
  match st with
  | Yield event elem => is_end_of "policy_published" event elem
  | Raises _ => false
  end.

(** The number of [record] elements whose end the stream reports. *)
Definition count_records (xmlctx : list step) : nat :=
  List.length (filter is_record_end xmlctx).

(** The events up to the first close of [policy_published], that event
    included. *)
Fixpoint metadata_section (xmlctx : list step) : list step :=
  match xmlctx with
  | [] => []
  | st :: xmlctx' =>
      if is_policy_end st then [st] else st :: metadata_section xmlctx'
  end.

(** The events after the first close of [policy_published]. *)
Fixpoint records_section (xmlctx : list step) : list step :=
  match xmlctx with
  | [] => []
  | st :: xmlctx' =>
      if is_policy_end st then xmlctx' else records_section xmlctx'
  end.

(** The report has the order of the format: no [record] closes before
    [policy_published] has. *)
Definition records_follow_policy (xmlctx : list step) : bool :=
  Nat.eqb (count_records (metadata_section xmlctx)) 0.

(** *** Records *)

(** The policy-evaluated verdict of a record clears it: dkim is ["pass"]
    or spf is ["pass"]. *)
Definition verdict_pass (record : Element) : bool :=
  match find record ["row"; "policy_evaluated"] with
  | None => false
  | Some policy =>
      option_str_eqb (findtext policy ["dkim"]) (Some "pass")
      || option_str_eqb (findtext policy ["spf"]) (Some "pass")
  end.

Definition is_passing_record (st : step) : bool :=
  match st with
  | Yield event elem => is_end_of "record" event elem && verdict_pass elem
  | Raises _ => false
  end.

Definition is_failing_record (st : step) : bool :=
  match st with
  | Yield event elem =>
      is_end_of "record" event elem && negb (verdict_pass elem)
  | Raises _ => false
  end.

(** The sub-results among [elems] for the domain [policy_domain] whose
    result is the label [k]. *)
Definition matching_results (policy_domain k : option string)
  (elems : list Element) : list Element :=
  filter (fun el => option_str_eqb (findtext el ["domain"]) policy_domain
                    && option_str_eqb (findtext el ["result"]) k) elems.

(** What a record adds to the statistics, from the verdict and the
    sub-results alone: [row/source_ip] and [row/count] are not looked at. *)
Definition tally_record (self : DmarcStatistics) (record : Element)
  : result DmarcStatistics :=
  policy <- getattr (find record ["row"; "policy_evaluated"]) (fun p => p) ;;
  let ok := option_str_eqb (findtext policy ["dkim"]) (Some "pass")
            || option_str_eqb (findtext policy ["spf"]) (Some "pass") in
  dkim <- tally_results (domain self)
            (findall record ["auth_results"; "dkim"]) (dkimresult self) ;;
  spf <- tally_results (domain self)
            (findall record ["auth_results"; "spf"]) (spfresult self) ;;
  Ok (set_counters self
        (if ok then (passed self + 1)%Z else passed self)
        (if ok then failed self else (failed self + 1)%Z)
        spf dkim).

(** The record has a [row/source_ip] and a [row/count] whose text [int]
    accepts. *)
Definition row_readable {runtime : Runtime} (record : Element) : bool :=
  match find record ["row"; "source_ip"], find record ["row"; "count"] with
  | Some _, Some c =>
      match text c with
      | Some t => match py_int t with Some _ => true | None => false end
      | None => false
      end
  | _, _ => false
  end.

(** *** The tables of a whole report *)

(** The sub-results of mechanism [mech] that a step hands to the record
    scan: those of a [record] that closes, none otherwise. *)
Definition step_sub_results (mech : string) (st : step) : list Element :=
  match st with
  | Yield event elem =>
      if is_end_of "record" event elem
      then findall elem ["auth_results"; mech]
      else []
  | Raises _ => []
  end.

(** All sub-results of a mechanism in the records of a stream, in the
    order of the stream. *)
Definition sub_results (mech : string) (xmlctx : list step) : list Element :=
  flat_map (step_sub_results mech) xmlctx.

(** The result labels of the sub-results for a domain, in order. *)
Definition labels (policy_domain : option string) (elems : list Element)
  : list (option string) :=
  map (fun el => findtext el ["result"])
    (filter (fun el => option_str_eqb (findtext el ["domain"]) policy_domain)
       elems).

(** A list of labels without the repetitions: every label at its first
    place, after the labels [seen] before. *)
Fixpoint first_seen (seen l : list (option string))
  : list (option string) :=
  match l with
  | [] => []
  | k :: l' =>
      if existsb (option_str_eqb k) seen
      then first_seen seen l'
      else k :: first_seen (seen ++ [k])%list l'
  end.

(** A table as the aggregator keeps it: no label twice, no count below 1. *)
Definition table_ok (d : dict) : Prop :=
  NoDup (map fst d) /\ Forall (fun kv => (1 <= snd kv)%Z) d.

(** The steps the construction looks at: the closes of [report_metadata],
    [policy_published] and [record], and the faults. *)
Definition is_relevant (st : step) : bool :=
  match st with
  | Yield event elem =>
      is_end_of "report_metadata" event elem
      || is_end_of "policy_published" event elem
      || is_end_of "record" event elem
  | Raises _ => true
  end.

(* ===================================================================== *)
(** ** Instances and reports for the examples *)
(* ===================================================================== *)

Module Examples.

Definition digit_of (c : ascii) : option Z :=
  let n := nat_of_ascii c in
  if Nat.leb 48 n && Nat.leb n 57 then Some (Z.of_nat (n - 48)) else None.

Fixpoint digits_value (acc : Z) (s : string) : option Z :=
  match s with
  | EmptyString => Some acc
  | String c s' =>
      match digit_of c with
      | Some d => digits_value (10 * acc + d) s'
      | None => None
      end
  end.

(** [int(s)] on the texts of the examples: a non-empty string of ASCII
    digits has its decimal value, and a string with a letter is refused.
    (Python accepts in addition a sign, surrounding white space and single
    underscores between digits; no example has them.) *)
Definition int_decimal (s : string) : option Z :=
  match s with
  | EmptyString => None
  | _ => digits_value 0 s
  end.

Definition two_digits (n : Z) : string :=
  (if (n <? 10)%Z then "0" else "") ++ str_of_int n.

Definition four_digits (n : Z) : string :=
  (if (n <? 10)%Z then "000" else if (n <? 100)%Z then "00"
   else if (n <? 1000)%Z then "0" else "") ++ str_of_int n.

(** [datetime.datetime.fromtimestamp(t).isoformat()] in a process whose
    local time zone is UTC, for the years 1 to 9999; the civil date is
    computed from the day number with eras of 400 years that begin on
    1 March. *)
Definition utc_isoformat (t : Z) : result string :=
  if ((t <? -62135596800) || (253402300799 <? t))%Z
  then Raise ValueError
  else
    let days := (t / 86400)%Z in
    let secs := (t mod 86400)%Z in
    let z := (days + 719468)%Z in
    let era := (z / 146097)%Z in
    let doe := (z - era * 146097)%Z in
    let yoe := ((doe - doe / 1460 + doe / 36524 - doe / 146096) / 365)%Z in
    let doy := (doe - (365 * yoe + yoe / 4 - yoe / 100))%Z in
    let mp := ((5 * doy + 2) / 153)%Z in
    let d := (doy - (153 * mp + 2) / 5 + 1)%Z in
    let m := (if (mp <? 10)%Z then mp + 3 else mp - 9)%Z in
    let y := (yoe + era * 400 + (if (m <=? 2)%Z then 1 else 0))%Z in
    Ok (four_digits y ++ "-" ++ two_digits m ++ "-" ++ two_digits d ++ "T"
        ++ two_digits (secs / 3600) ++ ":"
        ++ two_digits ((secs mod 3600) / 60) ++ ":"
        ++ two_digits (secs mod 60)).

Definition utc : Runtime :=
  {| py_int := int_decimal; fromtimestamp_isoformat := utc_isoformat |}.

Definition leaf (t v : string) : Element := mkElement t (Some v) [].
Definition node (t : string) (cs : list Element) : Element :=
  mkElement t None cs.

Definition date_range (b e : string) : Element :=
  node "date_range" [leaf "begin" b; leaf "end" e].

(** A [report_metadata] element from its children. *)
Definition metadata (cs : list Element) : Element :=
  node "report_metadata" cs.

Definition google_metadata : Element :=
  metadata [leaf "org_name" "google.com";
            leaf "email" "noreply-dmarc-support@google.com";
            leaf "report_id" "google.com.xf83a";
            date_range "1609459200" "1609545599"].

Definition policy_published (d : string) : Element :=
  node "policy_published"
    [leaf "domain" d; leaf "adkim" "r"; leaf "aspf" "r"; leaf "p" "none"].

Definition auth (mechanism d r : string) : Element :=
  node mechanism [leaf "domain" d; leaf "result" r].

(** A [record] element from the children of its [row] and of its
    [auth_results]. *)
Definition record (row auth_results : list Element) : Element :=
  node "record"
    [node "row" row;
     node "identifiers" [leaf "header_from" "example.org"];
     node "auth_results" auth_results].

Definition evaluated (dkim spf : string) : Element :=
  node "policy_evaluated"
    [leaf "disposition" "none"; leaf "dkim" dkim; leaf "spf" spf].

(** Signed by a third party only: the verdict passes, no DKIM sub-result
    is for the policy domain. *)
Definition record_third_party : Element :=
  record [leaf "source_ip" "192.0.2.1"; leaf "count" "2";
          evaluated "pass" "fail"]
         [auth "dkim" "thirdparty.net" "pass";
          auth "spf" "example.org" "fail"].

Definition record_failing : Element :=
  record [leaf "source_ip" "198.51.100.7"; leaf "count" "12";
          evaluated "fail" "fail"]
         [auth "dkim" "example.org" "fail";
          auth "dkim" "example.org" "fail";
          auth "spf" "example.org" "softfail"].

(** No [count] in the row. *)
Definition record_without_count : Element :=
  record [leaf "source_ip" "192.0.2.1"; evaluated "pass" "pass"]
         [auth "dkim" "example.org" "pass"].

(** A [feedback] document in the order of the format. *)
Definition feedback (meta : Element) (records : list Element) : Element :=
  node "feedback"
    ([node "version" []; meta; policy_published "example.org"]
     ++ records)%list.

Definition report : Element :=
  feedback google_metadata [record_third_party; record_failing].

(** [date_range/begin] is not a number. *)
Definition report_bad_begin : Element :=
  feedback (metadata [leaf "org_name" "google.com";
                      leaf "report_id" "google.com.xf83a";
                      date_range "abc" "1609545599"])
           [record_third_party].

(** No [date_range/begin]. *)
Definition report_no_begin : Element :=
  feedback (metadata [leaf "org_name" "google.com";
                      leaf "report_id" "google.com.xf83a";
                      node "date_range" [leaf "end" "1609545599"]])
           [record_third_party].

(** [<org_name></org_name>]: the organisation is the empty string. *)
Definition report_empty_org : Element :=
  feedback (metadata [node "org_name" [];
                      leaf "report_id" ".xf83a@mx.example.com"])
           [record_failing].

(** No [org_name]: the organisation is [None]. *)
Definition report_no_org : Element :=
  feedback (metadata [leaf "report_id" "xf83a"]) [record_failing].

(** The stream of a gzip payload cut after [n] events: the read that
    follows raises [EOFError]. *)
Definition truncated (n : nat) (doc : Element) : list step :=
  (firstn n (iterparse doc) ++ [Raises (OtherError "EOFError")])%list.

(** A message with a text body, a zip of two reports and a calendar
    entry. *)
Definition message_zip : list part :=
  [mkPart "multipart/mixed" (Raise (OtherError "BadZipFile")) [];
   mkPart "text/plain" (Raise (OtherError "BadZipFile")) [];
   mkPart "application/zip"
     (Ok [Ok (iterparse report); Ok (iterparse report_empty_org)]) [];
   mkPart "text/calendar" (Raise (OtherError "BadZipFile")) []].

(** A message whose gzip attachment is cut. *)
Definition message_cut_gzip : list part :=
  [mkPart "multipart/mixed" (Raise (OtherError "BadZipFile")) [];
   mkPart "application/gzip" (Raise (OtherError "BadZipFile"))
     (truncated 30 report);
   mkPart "application/gzip" (Raise (OtherError "BadZipFile"))
     (iterparse report)].

(** A sub-result for the policy domain without a [result] element. *)
Definition record_without_result : Element :=
  record [leaf "source_ip" "192.0.2.1"; leaf "count" "1";
          evaluated "pass" "pass"]
         [node "dkim" [leaf "domain" "example.org"]].

End Examples.

(* ===================================================================== *)
(** ** Strings, options and dictionaries: basic facts *)
(* ===================================================================== *)

Lemma append_assoc (a b c : string) : (a ++ b) ++ c = a ++ b ++ c.
Proof. induction a as [|x a IH]; simpl; [reflexivity | now rewrite IH]. Qed.

Lemma append_length (a b : string) :
  String.length (a ++ b) = String.length a + String.length b.
Proof. induction a as [|x a IH]; simpl; [reflexivity | now rewrite IH]. Qed.

Lemma prefix_iff (p s : string) :
  String.prefix p s = true <-> exists t, s = p ++ t.
Proof.
  revert s; induction p as [|c p IH]; intros s.
  - destruct s; simpl; split; intros _; eauto.
  - destruct s as [|c' s]; simpl.
    + split; [discriminate | intros [t H]; discriminate].
    + destruct (Ascii.ascii_dec c c') as [->|Hne].
      * rewrite IH. split; intros [t H]; exists t; congruence.
      * split; [discriminate | intros [t H]; congruence].
Qed.

Lemma str_drop_append (p t : string) : str_drop (String.length p) (p ++ t) = t.
Proof. induction p as [|c p IH]; simpl; [now destruct t | exact IH]. Qed.

Lemma str_in_iff (sub s : string) :
  str_in sub s = true <-> exists a b, s = a ++ sub ++ b.
Proof.
  split.
  - induction s as [|c s IH]; cbn [str_in]; rewrite orb_true_iff.
    + intros [H|H]; [|discriminate].
      apply prefix_iff in H as [t H]. now exists "", t.
    + intros [H|H].
      * apply prefix_iff in H as [t H]. now exists "", t.
      * destruct (IH H) as (a & b & ->). now exists (String c a), b.
  - intros (a & b & ->). induction a as [|c a IH].
    + assert (H : String.prefix sub (sub ++ b) = true)
        by (apply prefix_iff; eauto).
      cbn [append]. destruct (sub ++ b); cbn [str_in]; now rewrite H.
    + cbn [append str_in]. rewrite IH. apply orb_true_r.
Qed.

Lemma str_in_at_false (s : string) : str_in "@" s = false <-> no_at s.
Proof.
  unfold no_at. split.
  - intros H a b ->.
    assert (H' : str_in "@" (a ++ "@" ++ b) = true)
      by (apply str_in_iff; eauto).
    congruence.
  - intros H. destruct (str_in "@" s) eqn:E; [|reflexivity].
    apply str_in_iff in E as (a & b & E). now apply H in E.
Qed.

Lemma prefix_at_other (c : ascii) (s : string) :
  c <> "@"%char -> String.prefix "@" (String c s) = false.
Proof.
  intros H. cbn [String.prefix].
  destruct (Ascii.ascii_dec "@" c); [congruence | reflexivity].
Qed.

(** Under the guard of line 62 the split has two pieces, and the first
    holds no ["@"]. *)
Lemma split_1_at (s : string) :
  str_in "@" s = true ->
  exists a b, split_1 "@" s = [a; b] /\ s = a ++ "@" ++ b
              /\ str_in "@" a = false.
Proof.
  induction s as [|c s IH]; [discriminate|].
  destruct (Ascii.ascii_dec c "@"%char) as [->|Hne].
  - intros _. exists "", s. repeat split.
    assert (Hp : String.prefix "@" (String "@" s) = true)
      by (apply prefix_iff; now exists s).
    cbn [split_1]. rewrite Hp. reflexivity.
  - intros H. pose proof (prefix_at_other c s Hne) as Hp.
    assert (Hs : str_in "@" s = true).
    { revert H. cbn [str_in]. now rewrite Hp. }
    destruct (IH Hs) as (a & b & Hsplit & -> & Ha).
    exists (String c a), b. repeat split.
    + cbn [split_1]. rewrite Hp, Hsplit. reflexivity.
    + cbn [str_in]. rewrite Ha, (prefix_at_other c a Hne). reflexivity.
Qed.

Lemma option_str_eqb_eq (a b : option string) :
  option_str_eqb a b = true <-> a = b.
Proof.
  destruct a as [x|], b as [y|]; simpl;
    try (split; [discriminate | intros H; discriminate]);
    try (split; reflexivity).
  rewrite String.eqb_eq. split; congruence.
Qed.

Lemma option_str_eqb_refl (a : option string) : option_str_eqb a a = true.
Proof. now apply option_str_eqb_eq. Qed.

Lemma option_str_eqb_neq (a b : option string) :
  option_str_eqb a b = false <-> a <> b.
Proof.
  rewrite <- option_str_eqb_eq. destruct (option_str_eqb a b); split;
    congruence.
Qed.

(* ===================================================================== *)
(** ** The report identity normaliser *)
(* ===================================================================== *)

(** The two steps of lines 62-67, one after the other, on present values. *)
Lemma normalize_steps (raw org : string) :
  exists mid out,
    cut_at_first_at raw mid /\ strip_org_prefix org mid out
    /\ normalize (Some raw) (Some org) = Ok out.
Proof.
  assert (Hstrip : forall mid, exists out,
             strip_org_prefix org mid out /\
             (if startswith mid (org ++ ".")
              then Ok (str_drop (String.length org + 1) mid)
              else Ok mid) = Ok out).
  { intros mid. unfold startswith.
    destruct (String.prefix (org ++ ".") mid) eqn:E.
    - apply prefix_iff in E as [t ->]. exists t. split.
      + rewrite append_assoc. constructor.
      + replace (String.length org + 1) with (String.length (org ++ "."))
          by (rewrite append_length; reflexivity).
        now rewrite str_drop_append.
    - exists mid. split; [|reflexivity]. apply strip_none. intros t ->.
      rewrite <- append_assoc in E.
      assert (String.prefix (org ++ ".") ((org ++ ".") ++ t) = true)
        by (apply prefix_iff; eauto).
      congruence. }
  unfold normalize; cbn [bind]. destruct (str_in "@" raw) eqn:E.
  - destruct (split_1_at raw E) as (a & b & -> & -> & Ha).
    destruct (Hstrip a) as (out & H1 & H2).
    exists a, out. repeat split; try assumption.
    apply cut_at. now apply str_in_at_false.
  - destruct (Hstrip raw) as (out & H1 & H2).
    exists raw, out. repeat split; try assumption.
    apply cut_none. now apply str_in_at_false.
Qed.

(** An id that is already clean is returned as it is. *)
Lemma normalize_clean (x org : string) :
  str_in "@" x = false -> startswith x (org ++ ".") = false ->
  normalize (Some x) (Some org) = Ok x.
Proof.
  intros H1 H2. unfold normalize; cbn [bind].
  rewrite H1; cbn [bind]. now rewrite H2.
Qed.

Lemma normalize_absent_organisation (rid : option string) :
  normalize rid None = Raise TypeError.
Proof.
  unfold normalize. destruct rid as [raw|]; cbn [bind]; [|reflexivity].
  destruct (str_in "@" raw) eqn:E; cbn [bind]; [|reflexivity].
  destruct (split_1_at raw E) as (a & b & -> & _). reflexivity.
Qed.

(** The first ["@"] of a string is at one place. *)
Lemma first_at_unique (a a' b b' : string) :
  no_at a -> no_at a' -> a ++ "@" ++ b = a' ++ "@" ++ b' -> a = a'.
Proof.
  revert a'. induction a as [|c a IH]; intros [|c' a'] Ha Ha' E.
  - reflexivity.
  - cbn [append] in E. injection E as <- _. now destruct (Ha' "" a').
  - cbn [append] in E. injection E as -> _. now destruct (Ha "" a).
  - cbn [append] in E. injection E as -> E. f_equal. apply IH; try assumption.
    + intros x y ->. now apply (Ha (String c' x) y).
    + intros x y ->. now apply (Ha' (String c' x) y).
Qed.

Lemma cut_at_first_at_functional (s m m' : string) :
  cut_at_first_at s m -> cut_at_first_at s m' -> m = m'.
Proof.
  intros H H'. destruct H as [a b Ha|s Hs].
  - remember (a ++ "@" ++ b) as s eqn:Es.
    destruct H' as [a' b' Ha'|s Hs'].
    + symmetry in Es. now apply (first_at_unique a a' b b').
    + now destruct (Hs' a b).
  - destruct H' as [a' b' Ha'|s' Hs']; [|reflexivity].
    now destruct (Hs a' b').
Qed.

Lemma append_cancel (p t t' : string) : p ++ t = p ++ t' -> t = t'.
Proof.
  induction p as [|c p IH]; cbn [append]; intros E; [assumption|].
  injection E as E. now apply IH.
Qed.

Lemma strip_org_prefix_functional (org s m m' : string) :
  strip_org_prefix org s m -> strip_org_prefix org s m' -> m = m'.
Proof.
  intros H H'. destruct H as [t|s Hs].
  - remember (org ++ "." ++ t) as s eqn:Es.
    destruct H' as [t'|s Hs'].
    + rewrite <- !append_assoc in Es. now apply append_cancel in Es.
    + now destruct (Hs' t).
  - destruct H' as [t'|s' Hs']; [|reflexivity].
    now destruct (Hs t').
Qed.

(** C4. For every raw report id and organisation, normalisation is the two
    steps in this order: the id is cut at its first ["@"] (the ["@"] and
    what follows are dropped), and then, on the result of that cut and not
    on the raw id, the prefix [organisation + "."] is stripped. *)
Theorem normalize_two_steps (raw org mid out : string) :
  cut_at_first_at raw mid -> strip_org_prefix org mid out ->
  normalize (Some raw) (Some org) = Ok out.
Proof.
  intros Hcut Hstrip.
  destruct (normalize_steps raw org) as (mid' & out' & Hcut' & Hstrip' & ->).
  f_equal.
  rewrite (cut_at_first_at_functional _ _ _ Hcut Hcut') in Hstrip.
  exact (strip_org_prefix_functional _ _ _ _ Hstrip' Hstrip).
Qed.

(** The two ids the specification works out: ["google.com.xf83a"] loses the
    prefix of the organisation, ["2021.report1@mx.example.com"] is cut at
    the ["@"] and then has no prefix to lose. *)
Lemma normalize_two_steps_witness :
  normalize (Some "google.com.xf83a") (Some "google.com") = Ok "xf83a"
  /\ normalize (Some "2021.report1@mx.example.com") (Some "google.com")
     = Ok "2021.report1".
Proof.
  split.
  - apply (normalize_two_steps _ _ "google.com.xf83a").
    + apply cut_none. apply str_in_at_false. reflexivity.
    + exact (strip_prefix "google.com" "xf83a").
  - apply (normalize_two_steps _ _ "2021.report1").
    + apply (cut_at "2021.report1" "mx.example.com").
      apply str_in_at_false. reflexivity.
    + apply strip_none. intros t E.
      assert (H : String.prefix "google.com." "2021.report1" = true).
      { apply prefix_iff. exists t. exact E. }
      discriminate H.
Defined.

(** C9. Normalisation is idempotent on an id that is already clean: when
    [x] has no ["@"] and does not start with [org + "."], normalising [x]
    gives a value that normalisation maps to itself. *)
Theorem normalize_idempotent_on_clean (x org : string) :
  str_in "@" x = false -> startswith x (org ++ ".") = false ->
  exists y, normalize (Some x) (Some org) = Ok y
            /\ normalize (Some y) (Some org) = Ok y.
Proof.
  intros H1 H2. exists x. split; now apply normalize_clean.
Qed.

Lemma normalize_idempotent_on_clean_witness :
  exists y, normalize (Some "xf83a") (Some "google.com") = Ok y
            /\ normalize (Some y) (Some "google.com") = Ok y.
Proof.
  apply (normalize_idempotent_on_clean "xf83a" "google.com"); reflexivity.
Defined.

(* ===================================================================== *)
(** ** The result tables *)
(* ===================================================================== *)

Lemma dict_contains_false (k : option string) (d : dict) :
  dict_contains k d = false -> dict_getitem k d = None.
Proof.
  induction d as [|[k' v] d IH]; [reflexivity|].
  cbn [dict_contains dict_getitem]. destruct (option_str_eqb k k').
  - discriminate.
  - exact IH.
Qed.

Lemma dict_contains_true (k : option string) (d : dict) :
  dict_contains k d = true -> exists v, dict_getitem k d = Some v.
Proof.
  induction d as [|[k' v] d IH]; [discriminate|].
  cbn [dict_contains dict_getitem]. destruct (option_str_eqb k k').
  - intros _. now exists v.
  - exact IH.
Qed.

Lemma dict_getitem_setitem (k : option string) (v : Z) (d : dict) :
  dict_getitem k (dict_setitem k v d) = Some v.
Proof.
  induction d as [|[k' v'] d IH]; cbn [dict_setitem dict_getitem].
  - now rewrite option_str_eqb_refl.
  - destruct (option_str_eqb k k') eqn:E; cbn [dict_getitem]; rewrite E.
    + reflexivity.
    + exact IH.
Qed.

Lemma dict_getitem_setitem_other (k k0 : option string) (v : Z) (d : dict) :
  k0 <> k -> dict_getitem k0 (dict_setitem k v d) = dict_getitem k0 d.
Proof.
  intros Hne. induction d as [|[k' v'] d IH]; cbn [dict_setitem dict_getitem].
  - apply option_str_eqb_neq in Hne. now rewrite Hne.
  - destruct (option_str_eqb k k') eqn:E; cbn [dict_getitem].
    + apply option_str_eqb_eq in E. subst k'.
      apply option_str_eqb_neq in Hne. now rewrite Hne.
    + destruct (option_str_eqb k0 k'); [reflexivity | exact IH].
Qed.

(** Counting a label never raises: it adds one to the label and leaves the
    other labels alone. *)
Lemma tally_spec (k : option string) (d : dict) :
  exists d', tally k d = Ok d'
             /\ dict_count k d' = (dict_count k d + 1)%Z
             /\ forall k0, k0 <> k -> dict_count k0 d' = dict_count k0 d.
Proof.
  unfold tally, dict_count. destruct (dict_contains k d) eqn:E; cbn [negb].
  - destruct (dict_contains_true k d E) as [n Hn]. rewrite Hn.
    eexists. split; [reflexivity|]. split.
    + now rewrite dict_getitem_setitem.
    + intros k0 H0. now rewrite dict_getitem_setitem_other.
  - eexists. split; [reflexivity|]. split.
    + now rewrite dict_getitem_setitem, (dict_contains_false k d E).
    + intros k0 H0. now rewrite dict_getitem_setitem_other.
Qed.

(** The loop over the sub-results of one mechanism adds to every label
    the number of sub-results for the policy domain that carry it. *)
Lemma tally_results_spec (dom : option string) (elems : list Element) :
  forall d, exists d',
    tally_results dom elems d = Ok d'
    /\ forall k, dict_count k d'
                 = (dict_count k d
                    + Z.of_nat (List.length (matching_results dom k elems)))%Z.
Proof.
  induction elems as [|el elems IH]; intros d.
  - exists d. split; [reflexivity|]. intros k. cbn. lia.
  - cbn [tally_results matching_results filter].
    destruct (option_str_eqb (findtext el ["domain"]) dom) eqn:E;
      cbn [negb andb].
    + destruct (tally_spec (findtext el ["result"]) d) as (d1 & -> & H1 & H2).
      cbn [bind]. destruct (IH d1) as (d' & -> & H').
      exists d'. split; [reflexivity|]. intros k. rewrite H'.
      fold (matching_results dom k elems).
      destruct (option_str_eqb (findtext el ["result"]) k) eqn:Ek.
      * apply option_str_eqb_eq in Ek. subst k. rewrite H1.
        cbn [List.length]. lia.
      * apply option_str_eqb_neq in Ek. rewrite H2 by congruence. lia.
    + destruct (IH d) as (d' & -> & H'). exists d'. split; [reflexivity|].
      intros k. rewrite H'. reflexivity.
Qed.

(* ===================================================================== *)
(** ** The record aggregator *)
(* ===================================================================== *)

Section Properties.

Context {runtime : Runtime}.

(** A record with a readable row is aggregated from its verdict and its
    sub-results alone. *)
Lemma aggregate_record_readable (self : DmarcStatistics) (record : Element) :
  row_readable record = true ->
  aggregate_record self record = tally_record self record.
Proof.
  unfold row_readable, aggregate_record, tally_record, int.
  destruct (find record ["row"; "source_ip"]) as [ip|]; [|discriminate].
  destruct (find record ["row"; "count"]) as [c|]; [|discriminate].
  cbn [getattr bind].
  destruct (text c) as [t|]; [|discriminate].
  destruct (py_int t) as [n|]; [|discriminate].
  intros _. cbn [bind].
  destruct (find record ["row"; "policy_evaluated"]) as [policy|];
    [|reflexivity].
  cbn [getattr bind].
  destruct (option_str_eqb (findtext policy ["dkim"]) (Some "pass"));
    reflexivity.
Qed.

(** A record without a readable row ends the construction. *)
Lemma aggregate_record_unreadable (self : DmarcStatistics)
  (record : Element) :
  row_readable record = false ->
  exists e, aggregate_record self record = Raise e.
Proof.
  unfold row_readable, aggregate_record, int.
  destruct (find record ["row"; "source_ip"]) as [ip|];
    [|intros _; now exists AttributeError].
  destruct (find record ["row"; "count"]) as [c|];
    [|intros _; now exists AttributeError].
  cbn [getattr bind].
  destruct (text c) as [t|]; [|intros _; now exists TypeError].
  destruct (py_int t) as [n|]; [discriminate|].
  intros _. now exists ValueError.
Qed.

(** What one record changes. *)
Lemma tally_record_spec (self self' : DmarcStatistics) (record : Element) :
  tally_record self record = Ok self' ->
  domain self' = domain self
  /\ passed self' = (passed self + if verdict_pass record then 1 else 0)%Z
  /\ failed self' = (failed self + if verdict_pass record then 0 else 1)%Z
  /\ (forall k,
        dict_count k (dkimresult self')
        = (dict_count k (dkimresult self)
           + Z.of_nat (List.length
               (matching_results (domain self) k
                  (findall record ["auth_results"; "dkim"]))))%Z)
  /\ (forall k,
        dict_count k (spfresult self')
        = (dict_count k (spfresult self)
           + Z.of_nat (List.length
               (matching_results (domain self) k
                  (findall record ["auth_results"; "spf"]))))%Z).
Proof.
  unfold tally_record, verdict_pass.
  destruct (find record ["row"; "policy_evaluated"]) as [policy|];
    [|discriminate].
  cbn [getattr bind].
  destruct (tally_results_spec (domain self)
              (findall record ["auth_results"; "dkim"]) (dkimresult self))
    as (dk & -> & Hdk).
  destruct (tally_results_spec (domain self)
              (findall record ["auth_results"; "spf"]) (spfresult self))
    as (sp & -> & Hsp).
  cbn [bind]. intros [= <-]. cbn.
  repeat split; try assumption;
    destruct (option_str_eqb (findtext policy ["dkim"]) (Some "pass")
              || option_str_eqb (findtext policy ["spf"]) (Some "pass"));
    lia.
Qed.

Lemma aggregate_record_Ok (self self' : DmarcStatistics) (record : Element) :
  aggregate_record self record = Ok self' ->
  row_readable record = true /\ tally_record self record = Ok self'.
Proof.
  intros H. destruct (row_readable record) eqn:E.
  - split; [reflexivity|]. now rewrite <- aggregate_record_readable.
  - destruct (aggregate_record_unreadable self record E) as [e He].
    congruence.
Qed.

(** C2. A DKIM sub-result of a record adds exactly 1 to [dkimresult] at its
    result label when its domain is the policy domain, and nothing when it
    is not: after a record, every label has grown by the number of the
    record's DKIM sub-results for the policy domain with that label.  So a
    record none of whose DKIM sub-results is for the policy domain leaves
    [dkimresult] as it was, while its verdict is still counted, in [passed]
    when it passes.  The same holds for SPF and [spfresult]. *)
Theorem sub_results_counted_for_policy_domain
  (self self' : DmarcStatistics) (record : Element) :
  aggregate_record self record = Ok self' ->
  (forall k,
      dict_count k (dkimresult self')
      = (dict_count k (dkimresult self)
         + Z.of_nat (List.length
             (matching_results (domain self) k
                (findall record ["auth_results"; "dkim"]))))%Z)
  /\ (forall k,
      dict_count k (spfresult self')
      = (dict_count k (spfresult self)
         + Z.of_nat (List.length
             (matching_results (domain self) k
                (findall record ["auth_results"; "spf"]))))%Z)
  /\ ((forall el, In el (findall record ["auth_results"; "dkim"]) ->
                  findtext el ["domain"] <> domain self) ->
      forall k, dict_count k (dkimresult self')
                = dict_count k (dkimresult self))
  /\ ((forall el, In el (findall record ["auth_results"; "spf"]) ->
                  findtext el ["domain"] <> domain self) ->
      forall k, dict_count k (spfresult self')
                = dict_count k (spfresult self))
  /\ (verdict_pass record = true -> passed self' = (passed self + 1)%Z).
Proof.
  intros H. apply aggregate_record_Ok in H as [_ H].
  apply tally_record_spec in H as (_ & Hp & _ & Hdkim & Hspf).
  assert (Hnone : forall dom k elems,
             (forall el, In el elems -> findtext el ["domain"] <> dom) ->
             matching_results dom k elems = []).
  { intros dom k elems. unfold matching_results.
    induction elems as [|el elems IH]; intros Hall; [reflexivity|].
    cbn [filter].
    assert (E : option_str_eqb (findtext el ["domain"]) dom = false)
      by (apply option_str_eqb_neq, Hall; now left).
    rewrite E. cbn [andb]. apply IH. intros el' Hin. apply Hall. now right. }
  repeat split; try assumption.
  - intros Hall k. rewrite Hdkim, (Hnone _ _ _ Hall). cbn. lia.
  - intros Hall k. rewrite Hspf, (Hnone _ _ _ Hall). cbn. lia.
  - intros Hv. rewrite Hp, Hv. reflexivity.
Qed.

(* ===================================================================== *)
(** ** The two phases *)
(* ===================================================================== *)

Lemma sections_app (xmlctx : list step) :
  xmlctx = (metadata_section xmlctx ++ records_section xmlctx)%list.
Proof.
  induction xmlctx as [|st xmlctx IH]; [reflexivity|].
  cbn [metadata_section records_section]. destruct (is_policy_end st).
  - reflexivity.
  - cbn [app]. now rewrite <- IH.
Qed.

Lemma count_records_app (a b : list step) :
  count_records (a ++ b) = count_records a + count_records b.
Proof. unfold count_records. now rewrite filter_app, length_app. Qed.

Lemma count_records_split (xmlctx : list step) :
  count_records xmlctx
  = List.length (filter is_passing_record xmlctx)
    + List.length (filter is_failing_record xmlctx).
Proof.
  unfold count_records. induction xmlctx as [|st xmlctx IH]; [reflexivity|].
  cbn [filter]. destruct st as [event elem|e]; cbn [is_record_end
    is_passing_record is_failing_record]; [|exact IH].
  destruct (is_end_of "record" event elem); cbn [andb]; [|exact IH].
  destruct (verdict_pass elem); cbn [negb List.length]; lia.
Qed.

Lemma read_report_metadata_domain (self self' : DmarcStatistics)
  (elem : Element) :
  read_report_metadata self elem = Ok self' -> domain self' = domain self.
Proof.
  unfold read_report_metadata.
  destruct (timestamp elem ["date_range"; "begin"]); [|discriminate].
  destruct (timestamp elem ["date_range"; "end"]); [|discriminate].
  cbn [bind]. now intros [= <-].
Qed.

(** Phase 1 returns with the iterator just behind the first close of
    [policy_published], whose domain it has stored, or at its end when
    there is none. *)
Lemma parse_metadata_spec (xmlctx : list step) :
  forall self m rest,
    parse_metadata self xmlctx = Ok (m, rest) ->
    rest = records_section xmlctx
    /\ ((exists pre event pp,
            xmlctx = (pre ++ Yield event pp :: rest)%list
            /\ is_end_of "policy_published" event pp = true
            /\ forallb (fun st => negb (is_policy_end st)) pre = true
            /\ domain m = findtext pp ["domain"])
        \/ (rest = []
            /\ forallb (fun st => negb (is_policy_end st)) xmlctx = true
            /\ domain m = domain self)).
Proof.
  induction xmlctx as [|st xmlctx IH]; intros self m rest H.
  - injection H as <- <-. split; [reflexivity|]. right. now repeat split.
  - destruct st as [event elem|e]; [|discriminate].
    cbn [parse_metadata] in H.
    assert (Hself : exists s1,
               (if is_end_of "report_metadata" event elem
                then read_report_metadata self elem else Ok self) = Ok s1
               /\ domain s1 = domain self).
    { destruct (is_end_of "report_metadata" event elem).
      - destruct (read_report_metadata self elem) as [s1|] eqn:E;
          [|discriminate].
        exists s1. split; [reflexivity|].
        now apply read_report_metadata_domain in E.
      - now exists self. }
    destruct Hself as (s1 & Hs1 & Hd). rewrite Hs1 in H. cbn [bind] in H.
    cbn [records_section is_policy_end forallb].
    destruct (is_end_of "policy_published" event elem) eqn:E.
    + injection H as <- <-. split; [reflexivity|]. left.
      exists [], event, elem. now repeat split.
    + apply IH in H as [Hrest [(pre & ev & pp & -> & Hpp & Hpre & Hdom)|
                                (-> & Hall & Hdom)]].
      * split; [assumption|]. left.
        exists (Yield event elem :: pre), ev, pp. repeat split; try assumption.
        cbn [forallb is_policy_end]. now rewrite E, Hpre.
      * split; [assumption|]. right. repeat split; try assumption.
        congruence.
Qed.


(** The stages of a construction that succeeds. *)
Lemma init_Ok (xmlctx : list step) (r : DmarcStatistics) :
  init xmlctx = Ok r ->
  exists m rid r0 si di,
    parse_metadata new_instance xmlctx = Ok (m, records_section xmlctx)
    /\ normalize (report_id m) (organisation m) = Ok rid
    /\ parse_records (set_counters (set_report_id m (Some rid)) 0 0 [] [])
         (records_section xmlctx) = Ok r0
    /\ r = set_info r0 si di.
Proof.
  unfold init.
  destruct (parse_metadata new_instance xmlctx) as [[m rest]|] eqn:Hm;
    [|discriminate].
  pose proof (parse_metadata_spec _ _ _ _ Hm) as [-> _]. cbn [bind].
  destruct (normalize (report_id m) (organisation m)) as [rid|] eqn:Hn;
    [|discriminate].
  cbn [bind].
  destruct (parse_records _ (records_section xmlctx)) as [r0|] eqn:Hr;
    [|discriminate].
  cbn [bind].
  destruct (info (spfresult r0)) as [si|]; [|discriminate].
  destruct (info (dkimresult r0)) as [di|]; [|discriminate].
  cbn [bind]. intros [= <-]. exists m, rid, r0, si, di.
  repeat split; assumption.
Qed.

(** Phase 2 counts every record it meets once, by its verdict, and keeps
    the domain. *)
Lemma parse_records_spec (xmlctx : list step) :
  forall self r,
    parse_records self xmlctx = Ok r ->
    domain r = domain self
    /\ passed r
       = (passed self
          + Z.of_nat (List.length (filter is_passing_record xmlctx)))%Z
    /\ failed r
       = (failed self
          + Z.of_nat (List.length (filter is_failing_record xmlctx)))%Z.
Proof.
  induction xmlctx as [|st xmlctx IH]; intros self r H.
  - injection H as <-. repeat split; cbn; lia.
  - destruct st as [event elem|e]; [|discriminate].
    cbn [parse_records] in H.
    cbn [filter is_passing_record is_failing_record].
    destruct (is_end_of "record" event elem); cbn [andb].
    + destruct (aggregate_record self elem) as [s1|] eqn:Ha; [|discriminate].
      cbn [bind] in H. apply aggregate_record_Ok in Ha as [_ Ha].
      apply tally_record_spec in Ha as (Hd & Hp & Hf & _).
      apply IH in H as (Hd' & Hp' & Hf').
      rewrite Hd', Hp', Hf', Hd, Hp, Hf.
      destruct (verdict_pass elem); cbn [negb List.length];
        repeat split; lia.
    + cbn [bind] in H. now apply IH in H.
Qed.

(** The stream of a document reports the end of each of its [record]
    elements once. *)
Lemma count_records_iterparse (doc : Element) :
  count_records (iterparse doc) = count_elements "record" doc.
Proof.
  unfold iterparse. induction doc as [tg tx cs IH] using Element_induction.
  cbn [end_order count_elements]. rewrite map_app, count_records_app.
  rewrite Nat.add_comm. f_equal.
  - unfold count_records. cbn. now destruct (String.eqb tg "record").
  - induction IH as [|c cs Hc _ IHcs]; [reflexivity|].
    cbn [flat_map map list_sum fold_right].
    rewrite map_app, count_records_app, Hc. f_equal. exact IHcs.
Qed.

(** C1. Every record element the record scan meets adds exactly 1 to
    exactly one counter, [passed] when the policy-evaluated dkim or spf
    verdict is ["pass"] and [failed] otherwise, whatever its [count]: after
    the construction [passed] is the number of passing records of the
    records section, [failed] the number of the others, and their sum the
    number of its records, which for a report in the order of the format
    is the number of [record] elements of the input. *)
Theorem passed_plus_failed_is_record_count
  (xmlctx : list step) (r : DmarcStatistics) :
  init xmlctx = Ok r ->
  passed r
  = Z.of_nat (List.length (filter is_passing_record (records_section xmlctx)))
  /\ failed r
     = Z.of_nat
         (List.length (filter is_failing_record (records_section xmlctx)))
  /\ (passed r + failed r)%Z
     = Z.of_nat (count_records (records_section xmlctx))
  /\ (records_follow_policy xmlctx = true ->
      (passed r + failed r)%Z = Z.of_nat (count_records xmlctx)
      /\ forall doc, xmlctx = iterparse doc ->
           (passed r + failed r)%Z = Z.of_nat (count_elements "record" doc)).
Proof.
  intros H. apply init_Ok in H as (m & rid & r0 & si & di & _ & _ & Hr & ->).
  apply parse_records_spec in Hr as (_ & Hp & Hf). cbn in Hp, Hf |- *.
  pose proof (count_records_split (records_section xmlctx)) as Hsplit.
  repeat split; try lia.
  all: unfold records_follow_policy in H; apply Nat.eqb_eq in H.
  all: assert (Hc : count_records xmlctx
                    = count_records (metadata_section xmlctx)
                      + count_records (records_section xmlctx))
         by (now rewrite <- count_records_app, <- sections_app).
  - lia.
  - intros doc ->. rewrite <- count_records_iterparse. lia.
Qed.


(** A record of the record scan without a readable row ends the scan. *)
Lemma parse_records_unreadable (xmlctx : list step) :
  forall self event record,
    In (Yield event record) xmlctx ->
    is_end_of "record" event record = true ->
    row_readable record = false ->
    exists e, parse_records self xmlctx = Raise e.
Proof.
  induction xmlctx as [|st xmlctx IH]; intros self event record Hin Hrec Hrow;
    [destruct Hin|].
  destruct Hin as [->|Hin].
  - cbn [parse_records]. rewrite Hrec.
    destruct (aggregate_record_unreadable self record Hrow) as [e ->].
    now exists e.
  - destruct st as [ev el|e]; [|now exists e].
    cbn [parse_records].
    destruct (if is_end_of "record" ev el then aggregate_record self el
              else Ok self) as [s1|e].
    + cbn [bind]. now apply (IH s1 event record).
    + now exists e.
Qed.

(** A fault of the stream ends the record scan. *)
Lemma parse_records_fault (xmlctx : list step) :
  forall self e,
    In (Raises e) xmlctx -> exists e', parse_records self xmlctx = Raise e'.
Proof.
  induction xmlctx as [|st xmlctx IH]; intros self e Hin; [destruct Hin|].
  destruct st as [ev el|e0]; [|now exists e0].
  destruct Hin as [Hin|Hin]; [discriminate|].
  cbn [parse_records].
  destruct (if is_end_of "record" ev el then aggregate_record self el
            else Ok self) as [s1|e1].
  - cbn [bind]. now apply (IH s1 e).
  - now exists e1.
Qed.

(** When the record scan cannot succeed, the construction cannot. *)
Lemma init_records_raise (xmlctx : list step) :
  (forall self, exists e,
      parse_records self (records_section xmlctx) = Raise e) ->
  exists e, init xmlctx = Raise e.
Proof.
  intros H. destruct (init xmlctx) as [r|e] eqn:E; [|now exists e].
  apply init_Ok in E as (m & rid & r0 & si & di & _ & _ & Hr & _).
  destruct (H (set_counters (set_report_id m (Some rid)) 0 0 [] []))
    as [e He].
  congruence.
Qed.

(** C10. Every record of the record scan has its [row/source_ip] read and
    its [row/count] converted to an integer although neither value reaches
    the statistics: a record with both is aggregated from its verdict and
    its sub-results alone, and a record of the records section that lacks
    [row/source_ip] or [row/count], or whose [row/count] text [int]
    refuses, makes the construction of the whole report fail. *)
Theorem unused_row_fields_are_required :
  (forall self record,
      row_readable record = true ->
      aggregate_record self record = tally_record self record)
  /\ (forall xmlctx event record,
         In (Yield event record) (records_section xmlctx) ->
         is_end_of "record" event record = true ->
         row_readable record = false ->
         exists e, init xmlctx = Raise e).
Proof.
  split.
  - exact aggregate_record_readable.
  - intros xmlctx event record Hin Hrec Hrow. apply init_records_raise.
    intros self. now apply (parse_records_unreadable _ self event record).
Qed.

(* ===================================================================== *)
(** ** Faults of the stream *)
(* ===================================================================== *)

Lemma parse_metadata_keeps_fault (xmlctx : list step) :
  forall self m rest e,
    parse_metadata self xmlctx = Ok (m, rest) ->
    In (Raises e) xmlctx -> In (Raises e) rest.
Proof.
  induction xmlctx as [|st xmlctx IH]; intros self m rest e H Hin;
    [destruct Hin|].
  destruct st as [event elem|e0]; [|discriminate].
  destruct Hin as [Hin|Hin]; [discriminate|].
  cbn [parse_metadata] in H.
  destruct (if is_end_of "report_metadata" event elem
            then read_report_metadata self elem else Ok self) as [s1|];
    [|discriminate].
  cbn [bind] in H. destruct (is_end_of "policy_published" event elem).
  - now injection H as <- <-.
  - now apply (IH s1 m rest e).
Qed.

(** A stream with a fault gives no statistics. *)
Lemma init_fault (xmlctx : list step) (e : exception) :
  In (Raises e) xmlctx -> exists e', init xmlctx = Raise e'.
Proof.
  intros Hin. destruct (init xmlctx) as [r|e'] eqn:E; [|now exists e'].
  apply init_Ok in E as (m & rid & r0 & si & di & Hm & _ & Hr & _).
  pose proof (parse_metadata_keeps_fault _ _ _ _ _ Hm Hin) as Hrest.
  destruct (parse_records_fault _
              (set_counters (set_report_id m (Some rid)) 0 0 [] []) e Hrest)
    as [e' He'].
  congruence.
Qed.

Lemma parse_metadata_app (pre tail : list step) :
  forall self m rem,
    parse_metadata self pre = Ok (m, rem) ->
    parse_metadata self (pre ++ tail) = Ok (m, (rem ++ tail)%list)
    \/ (rem = []
        /\ parse_metadata self (pre ++ tail) = parse_metadata m tail).
Proof.
  induction pre as [|st pre IH]; intros self m rem H.
  - injection H as <- <-. right. now split.
  - destruct st as [event elem|e0]; [|discriminate].
    cbn [parse_metadata app] in H |- *.
    destruct (if is_end_of "report_metadata" event elem
              then read_report_metadata self elem else Ok self) as [s1|];
      [|discriminate].
    cbn [bind] in H |- *. destruct (is_end_of "policy_published" event elem).
    + injection H as <- <-. now left.
    + now apply IH.
Qed.

Lemma parse_records_app (pre tail : list step) :
  forall self r,
    parse_records self pre = Ok r ->
    parse_records self (pre ++ tail) = parse_records r tail.
Proof.
  induction pre as [|st pre IH]; intros self r H.
  - now injection H as <-.
  - destruct st as [event elem|e0]; [|discriminate].
    cbn [parse_records app] in H |- *.
    destruct (if is_end_of "record" event elem
              then aggregate_record self elem else Ok self) as [s1|];
      [|discriminate].
    cbn [bind] in H |- *. now apply IH.
Qed.

(** A stream that is cut by a fault, and whose part before the fault would
    have given statistics, gives the fault instead. *)
Lemma init_cut (pre post : list step) (e : exception) (r : DmarcStatistics) :
  init pre = Ok r -> init (pre ++ Raises e :: post) = Raise e.
Proof.
  intros H. apply init_Ok in H as (m & rid & r0 & si & di & Hm & Hn & Hr & _).
  unfold init.
  destruct (parse_metadata_app pre (Raises e :: post) _ _ _ Hm)
    as [->|[_ ->]]; [|reflexivity].
  cbn [bind]. rewrite Hn. cbn [bind].
  now rewrite (parse_records_app _ (Raises e :: post) _ _ Hr).
Qed.

(** No report is printed for a stream on which the construction fails. *)
Lemma parse_report_prints_no_report (xmlctx : list step) (e : exception) :
  init xmlctx = Raise e ->
  forall r, ~ In (Report r) (fst (parse_report xmlctx)).
Proof.
  intros H r. unfold parse_report. rewrite H.
  destruct e; cbn; intros Hin;
    solve [destruct Hin | destruct Hin as [Hin|[]]; discriminate Hin].
Qed.

(** Entries that ran without an exception are followed by the rest of
    the archive, and their lines stay in front. *)
Lemma dump_entries_after (before after : list (result (list step))) :
  forall out,
    dump_entries before = (out, None) ->
    dump_entries (before ++ after)
    = (let (outs, exc) := dump_entries after in ((out ++ outs)%list, exc)).
Proof.
  induction before as [|entry before IH]; intros out H.
  - injection H as <-. cbn. now destruct (dump_entries after).
  - destruct entry as [xmlctx|e0]; [|discriminate].
    cbn [app dump_entries] in H |- *.
    destruct (parse_report xmlctx) as [o [e1|]]; [discriminate|].
    destruct (dump_entries before) as [o1 x1] eqn:E.
    injection H as <- ->. rewrite (IH o1 eq_refl).
    destruct (dump_entries after). now rewrite app_assoc.
Qed.

(** Entries after an exception are not read. *)
Lemma dump_entries_stops (before after : list (result (list step))) :
  forall out e,
    dump_entries before = (out, Some e) ->
    dump_entries (before ++ after) = (out, Some e).
Proof.
  induction before as [|entry before IH]; intros out e H; [discriminate|].
  destruct entry as [xmlctx|e0]; [|exact H].
  cbn [app dump_entries] in H |- *.
  destruct (parse_report xmlctx) as [o [e1|]]; [exact H|].
  destruct (dump_entries before) as [o1 x1] eqn:E.
  injection H as <- ->. now rewrite (IH o1 e eq_refl).
Qed.

(** C8, as the code has it.  A payload whose reading faults gives no
    statistics: the construction on the faulty stream fails and no report
    is printed for it.  There is no [ArchiveError]: the exception of the
    decompressor is raised inside the iteration of [parse_report], and when
    the part read before it would have given statistics, that exception
    leaves [dump_gz] as it is, unless it is a [ParseError], which is
    printed.  What [zipfile.ZipFile] raises leaves [dump_zip] with nothing
    printed.  A zip entry that [archive.open] refuses, or whose stream
    faults, ends [dump_zip] with that exception after the lines of the
    entries before it have been printed (a [ParseError] is printed and the
    loop goes on); the reports the run prints are those of other
    entries. *)
Theorem faulty_payload_gives_no_statistics
  (pre post : list step) (e : exception) :
  (exists e', init (pre ++ Raises e :: post) = Raise e')
  /\ (forall r, ~ In (Report r) (fst (dump_gz (pre ++ Raises e :: post))))
  /\ (forall r, init pre = Ok r ->
        init (pre ++ Raises e :: post) = Raise e
        /\ dump_gz (pre ++ Raises e :: post)
           = match e with
             | ParseError msg =>
                 ([ErrorLine ("Error parsing XML: '" ++ msg ++ "'")], None)
             | _ => ([], Some e)
             end)
  /\ dump_zip (Raise e) = ([], Some e)
  /\ (forall before after out,
         dump_entries before = (out, None) ->
         dump_zip (Ok (before ++ Raise e :: after)%list) = (out, Some e))
  /\ (forall before after out r,
         dump_entries before = (out, None) ->
         init pre = Ok r ->
         dump_zip
           (Ok (before ++ Ok (pre ++ Raises e :: post)%list :: after)%list)
         = match e with
           | ParseError msg =>
               let (outs, exc) := dump_entries after in
               ((out
                 ++ ErrorLine ("Error parsing XML: '" ++ msg ++ "'") :: outs)
                %list, exc)
           | _ => (out, Some e)
           end)
  /\ (forall before after r,
         In (Report r)
           (fst (dump_zip
                   (Ok (before
                        ++ Ok (pre ++ Raises e :: post)%list :: after)%list)))
         ->
         In (Report r) (fst (dump_entries before))
         \/ In (Report r) (fst (dump_entries after))).
Proof.
  assert (Hfault : exists e', init (pre ++ Raises e :: post) = Raise e').
  { apply (init_fault _ e). apply in_or_app. right. now left. }
  split; [exact Hfault|]. split; [|split; [|split; [|split; [|split]]]].
  - destruct Hfault as [e' He']. unfold dump_gz.
    now apply (parse_report_prints_no_report _ e').
  - intros r Hr. pose proof (init_cut pre post e r Hr) as H.
    split; [exact H|]. unfold dump_gz, parse_report. rewrite H.
    now destruct e.
  - reflexivity.
  - intros before after out H. cbn [dump_zip].
    rewrite (dump_entries_after _ _ _ H). cbn [dump_entries].
    now rewrite app_nil_r.
  - intros before after out r H Hr. cbn [dump_zip].
    rewrite (dump_entries_after _ _ _ H). cbn [dump_entries].
    unfold parse_report. rewrite (init_cut pre post e r Hr).
    destruct e; try (now rewrite app_nil_r).
    now destruct (dump_entries after).
  - intros before after r. cbn [dump_zip].
    destruct (dump_entries before) as [out [e1|]] eqn:H.
    { rewrite (dump_entries_stops _ _ _ _ H). now left. }
    rewrite (dump_entries_after _ _ _ H). cbn [dump_entries].
    destruct Hfault as [e' He']. unfold parse_report. rewrite He'.
    destruct e'; try (cbn; rewrite app_nil_r; now left).
    destruct (dump_entries after) as [outs exc]. cbn [fst].
    intros Hin. apply in_app_or in Hin as [Hin|[Hin|Hin]];
      [now left | discriminate Hin | now right].
Qed.

(** C6, as the code has it.  Without an organisation (no [org_name]
    element) the prefix check raises [TypeError] and the construction
    fails with it; with the empty organisation normalisation succeeds: the
    id is cut at its first ["@"] and then loses a leading ["."]. *)
Theorem organisation_absent_or_empty (raw : string) :
  normalize (Some raw) None = Raise TypeError
  /\ (forall xmlctx m rest,
         parse_metadata new_instance xmlctx = Ok (m, rest) ->
         organisation m = None ->
         init xmlctx = Raise TypeError)
  /\ (exists mid out,
         cut_at_first_at raw mid /\ strip_org_prefix "" mid out
         /\ normalize (Some raw) (Some "") = Ok out).
Proof.
  split; [apply normalize_absent_organisation|]. split.
  - intros xmlctx m rest Hm Horg. unfold init. rewrite Hm. cbn [bind].
    now rewrite Horg, normalize_absent_organisation.
  - apply normalize_steps.
Qed.

(* ===================================================================== *)
(** ** Timestamps *)
(* ===================================================================== *)

(** A missing field: [int(None)] raises the [TypeError] the handler
    catches. *)
Lemma timestamp_missing (elem : Element) (path : list string) :
  findtext elem path = None -> timestamp elem path = Ok None.
Proof. intros H. unfold timestamp, int. now rewrite H. Qed.

(** A text [int] refuses: the [ValueError] is not caught. *)
Lemma timestamp_non_numeric (elem : Element) (path : list string)
  (t : string) :
  findtext elem path = Some t -> py_int t = None ->
  timestamp elem path = Raise ValueError.
Proof. intros H Hi. unfold timestamp, int. now rewrite H, Hi. Qed.

(** A missing [date_range/begin] leaves [start] absent and changes nothing
    else of what the metadata element gives. *)
Lemma missing_begin_leaves_start_absent
  (self : DmarcStatistics) (elem : Element) :
  findtext elem ["date_range"; "begin"] = None ->
  read_report_metadata self elem
  = (en <- timestamp elem ["date_range"; "end"] ;;
     Ok (set_metadata self (findtext elem ["org_name"])
           (findtext elem ["report_id"]) None en)).
Proof.
  intros H. unfold read_report_metadata.
  now rewrite (timestamp_missing _ _ H).
Qed.

(** A non-numeric [date_range/begin] or [date_range/end] ends the reading
    of the metadata with [ValueError]. *)
Lemma non_numeric_date_raises (self : DmarcStatistics) (elem : Element)
  (path : list string) (t : string) :
  path = ["date_range"; "begin"] \/ path = ["date_range"; "end"] ->
  findtext elem path = Some t -> py_int t = None ->
  exists e, read_report_metadata self elem = Raise e.
Proof.
  intros [->| ->] H Hi; unfold read_report_metadata.
  - rewrite (timestamp_non_numeric _ _ _ H Hi). now exists ValueError.
  - rewrite (timestamp_non_numeric _ _ _ H Hi).
    destruct (timestamp elem ["date_range"; "begin"]) as [st|e].
    + now exists ValueError.
    + now exists e.
Qed.

(** The only handler of [parse_report]: a [ParseError] that the iterator
    raises after a part that would have given statistics is printed with
    its message, and every other exception leaves [parse_report]. *)
Lemma parse_report_handles_ParseError_only
  (pre post : list step) (e : exception) (r : DmarcStatistics) :
  init pre = Ok r ->
  parse_report (pre ++ Raises e :: post)
  = match e with
    | ParseError msg =>
        ([ErrorLine ("Error parsing XML: '" ++ msg ++ "'")], None)
    | _ => ([], Some e)
    end.
Proof.
  intros H. unfold parse_report. rewrite (init_cut pre post e r H).
  now destruct e.
Qed.

(** C7, on the code: [parse_report] handles [ParseError] and nothing
    else, so a fault of the XML layer leaves it under its own class
    unless that class is [ParseError].  [defusedxml] refuses a document
    that declares an entity by raising [EntitiesForbidden], which is no
    [ParseError], when it reads the declaration, before any element has
    closed: the first step of the iterator raises.  That exception leaves
    [parse_report] and [dump_gz] with nothing printed and ends the loop
    of [main], where a [ParseError] at the same place is printed with its
    message. *)
Theorem forbidden_entity_leaves_parse_report :
  (forall e,
      parse_report [Raises e]
      = match e with
        | ParseError msg =>
            ([ErrorLine ("Error parsing XML: '" ++ msg ++ "'")], None)
        | _ => ([], Some e)
        end)
  /\ parse_report [Raises (OtherError "EntitiesForbidden")]
     = ([], Some (OtherError "EntitiesForbidden"))
  /\ dump_gz [Raises (OtherError "EntitiesForbidden")]
     = ([], Some (OtherError "EntitiesForbidden"))
  /\ (forall z parts messages,
         main_loop
           ((mkPart "application/gzip" z
               [Raises (OtherError "EntitiesForbidden")] :: parts)
            :: messages)
         = ([], Some (OtherError "EntitiesForbidden")))
  /\ parse_report [Raises (ParseError "mismatched tag: line 3, column 2")]
     = ([ErrorLine "Error parsing XML: 'mismatched tag: line 3, column 2'"],
        None).
Proof.
  split; [intros e; now destruct e|]. repeat split.
Qed.

End Properties.

(* ===================================================================== *)
(** ** The properties on the example reports

    The runtime is [Examples.utc]; the reports are those of [Examples]. *)
(* ===================================================================== *)

Lemma passed_plus_failed_is_record_count_witness :
  exists r,
    @init Examples.utc (iterparse Examples.report) = Ok r
    /\ (passed r + failed r)%Z
       = Z.of_nat (count_elements "record" Examples.report).
Proof.
  assert (H : exists r, @init Examples.utc (iterparse Examples.report) = Ok r)
    by (eexists; vm_compute; reflexivity).
  destruct H as [r H]. exists r. split; [exact H|].
  destruct (@passed_plus_failed_is_record_count Examples.utc _ _ H)
    as (_ & _ & _ & Hvalid).
  destruct Hvalid as [_ Hdoc]; [vm_compute; reflexivity|]. now apply Hdoc.
Defined.

Lemma sub_results_counted_for_policy_domain_witness :
  exists self',
    @aggregate_record Examples.utc
      (set_domain new_instance (Some "example.org"))
      Examples.record_third_party = Ok self'
    /\ (forall k, dict_count k (dkimresult self') = 0%Z)
    /\ passed self' = 1%Z.
Proof.
  eexists. split; [vm_compute; reflexivity|].
  pose proof (@sub_results_counted_for_policy_domain Examples.utc
                (set_domain new_instance (Some "example.org")) _
                Examples.record_third_party eq_refl)
    as (_ & _ & Hdkim & _ & Hpassed).
  split.
  - apply Hdkim. intros el [<-|[]]. vm_compute. discriminate.
  - apply Hpassed. reflexivity.
Defined.


Lemma unused_row_fields_are_required_witness :
  exists e,
    @init Examples.utc
      (iterparse
         (Examples.feedback Examples.google_metadata
            [Examples.record_third_party; Examples.record_without_count]))
    = Raise e.
Proof.
  apply (proj2 (@unused_row_fields_are_required Examples.utc) _ "end"
           Examples.record_without_count).
  - cbv. repeat (first [left; reflexivity | right]).
  - reflexivity.
  - reflexivity.
Defined.

Lemma faulty_payload_gives_no_statistics_witness :
  @init Examples.utc (Examples.truncated 51 Examples.report)
  = Raise (OtherError "EOFError")
  /\ @dump_gz Examples.utc (Examples.truncated 51 Examples.report)
     = ([], Some (OtherError "EOFError"))
  /\ exists r,
       @dump_zip Examples.utc
         (Ok [Ok (iterparse Examples.report);
              Raise (OtherError "BadZipFile")])
       = ([Report r], Some (OtherError "BadZipFile")).
Proof.
  split; [|split].
  - refine (proj1 (proj1 (proj2 (proj2
      (@faulty_payload_gives_no_statistics Examples.utc
         (iterparse Examples.report) [] (OtherError "EOFError")))) _ _)).
    vm_compute. reflexivity.
  - refine (proj2 (proj1 (proj2 (proj2
      (@faulty_payload_gives_no_statistics Examples.utc
         (iterparse Examples.report) [] (OtherError "EOFError")))) _ _)).
    vm_compute. reflexivity.
  - eexists.
    refine (proj1 (proj2 (proj2 (proj2 (proj2
      (@faulty_payload_gives_no_statistics Examples.utc
         [] [] (OtherError "BadZipFile"))))))
      [Ok (iterparse Examples.report)] [] _ _).
    vm_compute. reflexivity.
Defined.

(** A [gzip] payload cut in the middle of the records: [EOFError] leaves
    [dump_gz], and nothing is printed. *)
Lemma truncated_gzip_raises_EOFError :
  @dump_gz Examples.utc (Examples.truncated 30 Examples.report)
  = ([], Some (OtherError "EOFError"))
  /\ ~ (exists out e,
          @dump_gz Examples.utc (Examples.truncated 30 Examples.report)
          = (out, Some e)
          /\ class_of e = "ArchiveError").
Proof.
  split; [vm_compute; reflexivity|].
  intros (out & e & H & Hc). vm_compute in H. injection H as <- <-.
  discriminate Hc.
Qed.

Lemma organisation_absent_or_empty_witness :
  @init Examples.utc (iterparse Examples.report_no_org) = Raise TypeError.
Proof.
  eapply (proj1 (proj2 (@organisation_absent_or_empty Examples.utc "xf83a"))).
  - vm_compute. reflexivity.
  - reflexivity.
Defined.

(** With [<org_name></org_name>] the organisation is the empty string: the
    id is normalised and the statistics are produced. *)
Lemma empty_organisation_is_accepted :
  normalize (Some ".xf83a@mx.example.com") (Some "") = Ok "xf83a"
  /\ (exists r,
         @init Examples.utc (iterparse Examples.report_empty_org) = Ok r
         /\ organisation r = Some "" /\ report_id r = Some "xf83a")
  /\ ~ (forall raw org,
           org = None \/ org = Some "" ->
           exists e, normalize (Some raw) org = Raise e
                     /\ class_of e = "NormalizationError").
Proof.
  split; [reflexivity|]. split.
  - eexists. split; [vm_compute; reflexivity|]. now split.
  - intros H. destruct (H "xf83a" (Some "")) as (e & He & _);
      [now right|discriminate He].
Qed.

(** C5, on the code: a [date_range/begin] with the text ["abc"] ends the
    construction with the [ValueError] of [int], which the handler for
    [TypeError] does not catch and [parse_report] does not handle either;
    a report without [date_range/begin] is parsed, with [start] absent. *)
Theorem non_numeric_begin_raises_ValueError :
  @init Examples.utc (iterparse Examples.report_bad_begin) = Raise ValueError
  /\ @parse_report Examples.utc (iterparse Examples.report_bad_begin)
     = ([], Some ValueError)
  /\ (exists r,
         @init Examples.utc (iterparse Examples.report_no_begin) = Ok r
         /\ start r = None).
Proof.
  split; [vm_compute; reflexivity|]. split; [vm_compute; reflexivity|].
  eexists. split; [vm_compute; reflexivity|]. reflexivity.
Qed.

Lemma missing_begin_leaves_start_absent_witness :
  @read_report_metadata Examples.utc new_instance
    (Examples.metadata
       [Examples.leaf "org_name" "google.com";
        Examples.leaf "report_id" "google.com.xf83a";
        Examples.node "date_range" [Examples.leaf "end" "1609545599"]])
  = Ok (set_metadata new_instance (Some "google.com")
          (Some "google.com.xf83a") None (Some "2021-01-01T23:59:59")).
Proof.
  rewrite (@missing_begin_leaves_start_absent Examples.utc)
    by reflexivity.
  vm_compute. reflexivity.
Defined.

Lemma parse_report_handles_ParseError_only_witness :
  @parse_report Examples.utc
    (iterparse Examples.report
     ++ [Raises (ParseError "unclosed token: line 1, column 1200")])%list
  = ([ErrorLine "Error parsing XML: 'unclosed token: line 1, column 1200'"],
     None).
Proof.
  eapply (@parse_report_handles_ParseError_only Examples.utc
            (iterparse Examples.report) []).
  vm_compute. reflexivity.
Defined.

(* ===================================================================== *)
(** ** More on the report id *)
(* ===================================================================== *)

Lemma append_empty (s : string) : s ++ "" = s.
Proof. induction s as [|c s IH]; cbn [append]; [reflexivity | now rewrite IH]. Qed.

(** A piece at the end of a string without ["@"] has none. *)
Lemma no_at_suffix (p s : string) : no_at (p ++ s) -> no_at s.
Proof.
  intros H a b ->. apply (H (p ++ a) b). now rewrite append_assoc.
Qed.

(** X3. Whatever the report id and the organisation are, an id that
    normalisation returns holds no ["@"], and it is a piece of the raw id:
    the raw id is the normalised id with something before and something
    after it. *)
Theorem normalized_id_is_a_piece_without_at
  (raw : string) (org : option string) (out : string) :
  normalize (Some raw) org = Ok out ->
  str_in "@" out = false /\ exists a b, raw = a ++ out ++ b.
Proof.
  intros H. destruct org as [org|];
    [|rewrite normalize_absent_organisation in H; discriminate H].
  destruct (normalize_steps raw org) as (mid & out' & Hcut & Hstrip & E).
  rewrite E in H. injection H as ->.
  assert (Hmid : no_at mid /\ exists b, raw = mid ++ b).
  { destruct Hcut as [a b Ha|s Hs].
    - split; [assumption|]. now exists ("@" ++ b).
    - split; [assumption|]. exists "". now rewrite append_empty. }
  destruct Hmid as [Hno [b ->]].
  destruct Hstrip as [t|s Hs].
  - split.
    + apply str_in_at_false. apply (no_at_suffix (org ++ ".")).
      now rewrite append_assoc.
    + exists (org ++ "."), b. now rewrite !append_assoc.
  - split; [now apply str_in_at_false|]. now exists "", b.
Qed.

Lemma normalized_id_is_a_piece_without_at_witness :
  str_in "@" "report1" = false
  /\ exists a b, "google.com.report1@mx.example.com" = a ++ "report1" ++ b.
Proof.
  apply (normalized_id_is_a_piece_without_at
           "google.com.report1@mx.example.com" (Some "google.com")).
  reflexivity.
Defined.

(* ===================================================================== *)
(** ** More on the result tables *)
(* ===================================================================== *)

Lemma dict_contains_existsb (k : option string) (d : dict) :
  dict_contains k d = existsb (option_str_eqb k) (map fst d).
Proof.
  induction d as [|[k' v] d IH]; [reflexivity|].
  cbn [dict_contains map fst existsb]. now rewrite IH.
Qed.

Lemma dict_contains_In (k : option string) (d : dict) :
  dict_contains k d = true <-> In k (map fst d).
Proof.
  rewrite dict_contains_existsb, existsb_exists. split.
  - intros (x & Hin & E). apply option_str_eqb_eq in E. now subst x.
  - intros Hin. exists k. split; [assumption | apply option_str_eqb_refl].
Qed.

(** A new key goes last. *)
Lemma dict_setitem_new (k : option string) (v : Z) (d : dict) :
  dict_contains k d = false -> dict_setitem k v d = (d ++ [(k, v)])%list.
Proof.
  induction d as [|[k' v'] d IH]; [reflexivity|].
  cbn [dict_contains dict_setitem app].
  destruct (option_str_eqb k k'); [discriminate|].
  intros H. now rewrite IH.
Qed.

(** A present key keeps its place, and the keys are the same. *)
Lemma dict_setitem_keys (k : option string) (v : Z) (d : dict) :
  dict_contains k d = true -> map fst (dict_setitem k v d) = map fst d.
Proof.
  induction d as [|[k' v'] d IH]; [discriminate|].
  cbn [dict_contains dict_setitem].
  destruct (option_str_eqb k k'); cbn [map fst orb]; [reflexivity|].
  intros H. now rewrite IH.
Qed.

Lemma dict_setitem_counts (k : option string) (v : Z) (d : dict) :
  (1 <= v)%Z ->
  Forall (fun kv => (1 <= snd kv)%Z) d ->
  Forall (fun kv => (1 <= snd kv)%Z) (dict_setitem k v d).
Proof.
  intros Hv. induction 1 as [|[k' v'] d Hkv Hd IH]; cbn [dict_setitem].
  - now repeat constructor.
  - destruct (option_str_eqb k k'); constructor; assumption.
Qed.

Lemma dict_getitem_count (k : option string) (v : Z) (d : dict) :
  Forall (fun kv => (1 <= snd kv)%Z) d ->
  dict_getitem k d = Some v -> (1 <= v)%Z.
Proof.
  induction 1 as [|[k' v'] d Hkv Hd IH]; [discriminate|].
  cbn [dict_getitem]. destruct (option_str_eqb k k').
  - now intros [= <-].
  - exact IH.
Qed.

(** What counting a label does to the keys and to the shape of a table. *)
Lemma tally_table (k : option string) (d : dict) :
  table_ok d ->
  exists d', tally k d = Ok d'
             /\ table_ok d'
             /\ map fst d'
                = (if existsb (option_str_eqb k) (map fst d)
                   then map fst d else (map fst d ++ [k])%list).
Proof.
  intros [Hnodup Hcounts]. unfold tally.
  rewrite <- dict_contains_existsb.
  destruct (dict_contains k d) eqn:E; cbn [negb].
  - destruct (dict_contains_true k d E) as [n Hn]. rewrite Hn.
    eexists. split; [reflexivity|]. split; [split|].
    + now rewrite dict_setitem_keys.
    + apply dict_setitem_counts; [|assumption].
      pose proof (dict_getitem_count _ _ _ Hcounts Hn). lia.
    + now apply dict_setitem_keys.
  - eexists. split; [reflexivity|]. rewrite (dict_setitem_new _ _ _ E).
    split; [split|].
    + rewrite map_app. cbn [map fst]. apply NoDup_app; [assumption| |].
      * repeat constructor. intros [].
      * intros x Hx [<-|[]]. apply dict_contains_In in Hx. congruence.
    + apply Forall_app. split; [assumption|]. repeat constructor. cbn. lia.
    + now rewrite map_app.
Qed.

(** The loop over sub-results keeps the shape of a table and adds the new
    labels behind the old ones, in the order they first come. *)
Lemma tally_results_table (dom : option string) (elems : list Element) :
  forall d,
    table_ok d ->
    exists d', tally_results dom elems d = Ok d'
               /\ table_ok d'
               /\ map fst d'
                  = (map fst d
                     ++ first_seen (map fst d) (labels dom elems))%list.
Proof.
  unfold labels.
  induction elems as [|el elems IH]; intros d Hd.
  - exists d. split; [reflexivity|]. split; [assumption|].
    cbn. now rewrite app_nil_r.
  - cbn [tally_results filter].
    destruct (option_str_eqb (findtext el ["domain"]) dom); cbn [negb].
    + destruct (tally_table (findtext el ["result"]) d Hd)
        as (d1 & -> & Hd1 & Hkeys).
      cbn [bind]. destruct (IH d1 Hd1) as (d' & -> & Hd' & Hkeys').
      exists d'. split; [reflexivity|]. split; [assumption|].
      cbn [map first_seen]. rewrite Hkeys', Hkeys.
      destruct (existsb (option_str_eqb (findtext el ["result"]))
                  (map fst d)); [reflexivity|].
      now rewrite <- app_assoc.
    + apply IH, Hd.
Qed.

Lemma tally_results_app (dom : option string) (l1 l2 : list Element) :
  forall d,
    tally_results dom (l1 ++ l2) d
    = (d1 <- tally_results dom l1 d ;; tally_results dom l2 d1).
Proof.
  induction l1 as [|el l1 IH]; intros d; [reflexivity|].
  cbn [app tally_results].
  destruct (option_str_eqb (findtext el ["domain"]) dom); cbn [negb].
  - destruct (tally_spec (findtext el ["result"]) d) as (d1 & -> & _).
    cbn [bind]. apply IH.
  - apply IH.
Qed.

(** [info] succeeds on the tables whose labels are all strings. *)
Lemma info_Ok_labels (d : dict) (s : string) :
  info d = Ok s -> ~ In None (map fst d).
Proof.
  unfold info. destruct (info_items d) as [xs|] eqn:E; [|discriminate].
  intros _. revert xs E.
  induction d as [|[k v] d IH]; intros xs E; [intros []|].
  cbn [info_items] in E. destruct k as [k|]; [|discriminate E].
  cbn [bind] in E. destruct (info_items d) as [ys|]; [|discriminate E].
  intros [Hin|Hin]; [discriminate Hin|]. now apply (IH ys).
Qed.

(* ===================================================================== *)
(** ** The tables of a whole report *)
(* ===================================================================== *)

Section Tables.

Context {runtime : Runtime}.

(** The tables after one record, and what a record leaves alone. *)
Lemma tally_record_tables (self self' : DmarcStatistics) (record : Element) :
  tally_record self record = Ok self' ->
  tally_results (domain self) (findall record ["auth_results"; "dkim"])
    (dkimresult self) = Ok (dkimresult self')
  /\ tally_results (domain self) (findall record ["auth_results"; "spf"])
       (spfresult self) = Ok (spfresult self')
  /\ organisation self' = organisation self
  /\ report_id self' = report_id self
  /\ start self' = start self
  /\ end_ self' = end_ self
  /\ domain self' = domain self.
Proof.
  unfold tally_record.
  destruct (find record ["row"; "policy_evaluated"]) as [policy|];
    [|discriminate].
  cbn [getattr bind].
  destruct (tally_results (domain self)
              (findall record ["auth_results"; "dkim"]) (dkimresult self))
    as [dk|]; [|discriminate].
  cbn [bind].
  destruct (tally_results (domain self)
              (findall record ["auth_results"; "spf"]) (spfresult self))
    as [sp|]; [|discriminate].
  cbn [bind]. intros [= <-]. cbn. now repeat split.
Qed.

(** The record scan is one run of the tally loops over all sub-results of
    the stream, and it leaves the metadata alone. *)
Lemma parse_records_tables (xmlctx : list step) :
  forall self r,
    parse_records self xmlctx = Ok r ->
    tally_results (domain self) (sub_results "dkim" xmlctx) (dkimresult self)
    = Ok (dkimresult r)
    /\ tally_results (domain self) (sub_results "spf" xmlctx)
         (spfresult self) = Ok (spfresult r)
    /\ organisation r = organisation self
    /\ report_id r = report_id self
    /\ start r = start self
    /\ end_ r = end_ self
    /\ domain r = domain self.
Proof.
  induction xmlctx as [|st xmlctx IH]; intros self r H.
  - injection H as <-. now repeat split.
  - destruct st as [event elem|e]; [|discriminate].
    cbn [parse_records] in H. unfold sub_results.
    cbn [flat_map step_sub_results].
    fold (sub_results "dkim" xmlctx). fold (sub_results "spf" xmlctx).
    destruct (is_end_of "record" event elem).
    + destruct (aggregate_record self elem) as [s1|] eqn:Ha; [|discriminate].
      cbn [bind] in H. apply aggregate_record_Ok in Ha as [_ Ha].
      apply tally_record_tables in Ha
        as (Hdk & Hsp & Ho & Hi & Hs & He & Hd).
      apply IH in H as (Hdk' & Hsp' & Ho' & Hi' & Hs' & He' & Hd').
      rewrite !tally_results_app, Hdk, Hsp. cbn [bind].
      rewrite Hd in Hdk', Hsp'. repeat split; congruence.
    + cbn [bind] in H. now apply IH.
Qed.

(** The stages of a construction that succeeds, with the two summaries. *)
Lemma init_stages (xmlctx : list step) (r : DmarcStatistics) :
  init xmlctx = Ok r ->
  exists m rid r0,
    parse_metadata new_instance xmlctx = Ok (m, records_section xmlctx)
    /\ normalize (report_id m) (organisation m) = Ok rid
    /\ parse_records (set_counters (set_report_id m (Some rid)) 0 0 [] [])
         (records_section xmlctx) = Ok r0
    /\ info (spfresult r0) = Ok (spfinfo r)
    /\ info (dkimresult r0) = Ok (dkiminfo r)
    /\ r = set_info r0 (spfinfo r) (dkiminfo r).
Proof.
  unfold init.
  destruct (parse_metadata new_instance xmlctx) as [[m rest]|] eqn:Hm;
    [|discriminate].
  pose proof (parse_metadata_spec _ _ _ _ Hm) as [-> _]. cbn [bind].
  destruct (normalize (report_id m) (organisation m)) as [rid|] eqn:Hn;
    [|discriminate].
  cbn [bind].
  destruct (parse_records _ (records_section xmlctx)) as [r0|] eqn:Hr;
    [|discriminate].
  cbn [bind].
  destruct (info (spfresult r0)) as [si|] eqn:Hsi; [|discriminate].
  destruct (info (dkimresult r0)) as [di|] eqn:Hdi; [|discriminate].
  cbn [bind]. intros [= <-]. exists m, rid, r0. cbn. now repeat split.
Qed.

(** The tables of a constructed object are the tally loops run from the
    empty tables over the sub-results of the records section, with the
    domain of the object. *)
Lemma init_tables (xmlctx : list step) (r : DmarcStatistics) :
  init xmlctx = Ok r ->
  tally_results (domain r) (sub_results "dkim" (records_section xmlctx)) []
  = Ok (dkimresult r)
  /\ tally_results (domain r) (sub_results "spf" (records_section xmlctx)) []
     = Ok (spfresult r)
  /\ ~ In None (map fst (dkimresult r))
  /\ ~ In None (map fst (spfresult r)).
Proof.
  intros H.
  apply init_stages in H as (m & rid & r0 & _ & _ & Hr & Hsi & Hdi & ->).
  apply parse_records_tables in Hr as (Hdk & Hsp & _ & _ & _ & _ & Hd).
  cbn in Hdk, Hsp, Hd |- *. rewrite Hd.
  repeat split; try assumption.
  - now apply info_Ok_labels in Hdi.
  - now apply info_Ok_labels in Hsi.
Qed.

Lemma table_ok_empty : table_ok [].
Proof. split; constructor. Qed.

(** X4. In a constructed object the count of every label of [dkimresult]
    is the number of DKIM sub-results, over all records of the records
    section, that are for the domain of the object and carry that label
    (0 for a label that is not in the table), and the same holds for
    [spfresult] and the SPF sub-results. *)
Theorem tables_count_sub_results_of_the_policy_domain
  (xmlctx : list step) (r : DmarcStatistics) :
  init xmlctx = Ok r ->
  forall k,
    dict_count k (dkimresult r)
    = Z.of_nat (List.length
        (matching_results (domain r) k
           (sub_results "dkim" (records_section xmlctx))))
    /\ dict_count k (spfresult r)
       = Z.of_nat (List.length
           (matching_results (domain r) k
              (sub_results "spf" (records_section xmlctx)))).
Proof.
  intros H k. apply init_tables in H as (Hdk & Hsp & _).
  destruct (tally_results_spec (domain r)
              (sub_results "dkim" (records_section xmlctx)) [])
    as (dk & Edk & Hk).
  destruct (tally_results_spec (domain r)
              (sub_results "spf" (records_section xmlctx)) [])
    as (sp & Esp & Hs).
  rewrite Hdk in Edk. rewrite Hsp in Esp.
  injection Edk as <-. injection Esp as <-.
  rewrite Hk, Hs. cbn. split; lia.
Qed.

(** X5. The tables of a constructed object hold no label twice, no count
    below 1 and no label [None]: every entry stands for at least one
    sub-result, under the string of its result. *)
Theorem tables_hold_each_label_once_with_a_positive_count
  (xmlctx : list step) (r : DmarcStatistics) :
  init xmlctx = Ok r ->
  table_ok (dkimresult r) /\ table_ok (spfresult r)
  /\ (forall k v,
         In (k, v) (dkimresult r) \/ In (k, v) (spfresult r) ->
         k <> None /\ (1 <= v)%Z).
Proof.
  intros H. apply init_tables in H as (Hdk & Hsp & Hndk & Hnsp).
  destruct (tally_results_table (domain r)
              (sub_results "dkim" (records_section xmlctx)) [] table_ok_empty)
    as (dk & Edk & Hokdk & _).
  destruct (tally_results_table (domain r)
              (sub_results "spf" (records_section xmlctx)) [] table_ok_empty)
    as (sp & Esp & Hoksp & _).
  rewrite Hdk in Edk. rewrite Hsp in Esp.
  injection Edk as <-. injection Esp as <-.
  split; [assumption|]. split; [assumption|].
  intros k v [Hin|Hin]; split.
  - intros ->. apply Hndk. now apply (in_map fst) in Hin.
  - destruct Hokdk as [_ Hc]. rewrite Forall_forall in Hc.
    exact (Hc _ Hin).
  - intros ->. apply Hnsp. now apply (in_map fst) in Hin.
  - destruct Hoksp as [_ Hc]. rewrite Forall_forall in Hc.
    exact (Hc _ Hin).
Qed.

(** X6. The labels of [dkimresult], in the order [dkiminfo] lists them, are
    the result labels of the DKIM sub-results for the domain of the
    object, each at the place where it first comes in the records section;
    the same holds for [spfresult] and [spfinfo]. *)
Theorem labels_are_in_the_order_of_first_appearance
  (xmlctx : list step) (r : DmarcStatistics) :
  init xmlctx = Ok r ->
  map fst (dkimresult r)
  = first_seen []
      (labels (domain r) (sub_results "dkim" (records_section xmlctx)))
  /\ map fst (spfresult r)
     = first_seen []
         (labels (domain r) (sub_results "spf" (records_section xmlctx))).
Proof.
  intros H. apply init_tables in H as (Hdk & Hsp & _).
  destruct (tally_results_table (domain r)
              (sub_results "dkim" (records_section xmlctx)) [] table_ok_empty)
    as (dk & Edk & _ & Hkdk).
  destruct (tally_results_table (domain r)
              (sub_results "spf" (records_section xmlctx)) [] table_ok_empty)
    as (sp & Esp & _ & Hksp).
  rewrite Hdk in Edk. rewrite Hsp in Esp.
  injection Edk as <-. injection Esp as <-.
  now split.
Qed.

(** X7. A sub-result for the policy domain that has no [result] element
    makes the construction fail: its label [None] is counted, and the
    summary [k + "="] cannot be written for it. *)
Theorem sub_result_without_result_fails
  (xmlctx : list step) (m : DmarcStatistics) (rest : list step)
  (mech : string) (el : Element) :
  parse_metadata new_instance xmlctx = Ok (m, rest) ->
  mech = "dkim" \/ mech = "spf" ->
  In el (sub_results mech (records_section xmlctx)) ->
  findtext el ["domain"] = domain m ->
  findtext el ["result"] = None ->
  exists e, init xmlctx = Raise e.
Proof.
  intros Hm Hmech Hin Hdom Hres.
  destruct (init xmlctx) as [r|e] eqn:E; [|now exists e]. exfalso.
  pose proof (init_stages _ _ E) as (m' & rid & r0 & Hm' & _ & Hr & _ & _ & Er).
  rewrite Hm in Hm'. injection Hm' as <- _.
  apply parse_records_tables in Hr as (_ & _ & _ & _ & _ & _ & Hd).
  assert (Hdr : domain r = domain m) by (rewrite Er; cbn; exact Hd).
  pose proof (init_tables _ _ E) as (_ & _ & Hndk & Hnsp).
  assert (Hpos : forall d elems,
             In el elems ->
             dict_count None d
             = Z.of_nat (List.length (matching_results (domain r) None elems))
             -> In None (map fst d)).
  { intros d elems Hel Hc. apply dict_contains_In.
    destruct (dict_contains None d) eqn:Ec; [reflexivity|]. exfalso.
    unfold dict_count in Hc. rewrite (dict_contains_false _ _ Ec) in Hc.
    assert (Hf : In el (matching_results (domain r) None elems)).
    { apply filter_In. split; [assumption|].
      rewrite Hdr, Hdom, Hres. now rewrite !option_str_eqb_refl. }
    destruct (matching_results (domain r) None elems); [destruct Hf|].
    cbn [List.length] in Hc. lia. }
  destruct (tally_results_spec (domain r)
              (sub_results mech (records_section xmlctx)) []) as (d & Ed & Hk).
  pose proof (init_tables _ _ E) as (Hdk & Hsp & _).
  destruct Hmech as [-> | ->].
  - rewrite Hdk in Ed. injection Ed as <-. apply Hndk.
    apply (Hpos _ _ Hin). rewrite Hk. cbn. lia.
  - rewrite Hsp in Ed. injection Ed as <-. apply Hnsp.
    apply (Hpos _ _ Hin). rewrite Hk. cbn. lia.
Qed.

End Tables.

(* ===================================================================== *)
(** ** What the construction reads *)
(* ===================================================================== *)

Section Reading.

Context {runtime : Runtime}.

(** X8. The record scan accepts a record exactly when it has a
    [row/source_ip], a [row/count] whose text [int] accepts and a
    [row/policy_evaluated]; the sub-results never make it fail. *)
Theorem record_is_aggregated_iff (self : DmarcStatistics) (record : Element) :
  (exists self', aggregate_record self record = Ok self')
  <-> row_readable record = true
      /\ find record ["row"; "policy_evaluated"] <> None.
Proof.
  split.
  - intros [self' H]. apply aggregate_record_Ok in H as [Hrow H].
    split; [assumption|]. intros E. unfold tally_record in H.
    rewrite E in H. discriminate H.
  - intros [Hrow Hp]. rewrite (aggregate_record_readable _ _ Hrow).
    unfold tally_record.
    destruct (find record ["row"; "policy_evaluated"]) as [policy|];
      [|congruence].
    cbn [getattr bind].
    destruct (tally_results_spec (domain self)
                (findall record ["auth_results"; "dkim"]) (dkimresult self))
      as (dk & -> & _).
    destruct (tally_results_spec (domain self)
                (findall record ["auth_results"; "spf"]) (spfresult self))
      as (sp & -> & _).
    cbn [bind]. eexists. reflexivity.
Qed.

Lemma parse_records_relevant (xmlctx : list step) :
  forall self,
    parse_records self (filter is_relevant xmlctx) = parse_records self xmlctx.
Proof.
  induction xmlctx as [|st xmlctx IH]; intros self; [reflexivity|].
  destruct st as [event elem|e]; [|reflexivity].
  cbn [filter is_relevant].
  destruct (is_end_of "record" event elem) eqn:Er.
  - rewrite orb_true_r. cbn [parse_records]. rewrite Er.
    destruct (aggregate_record self elem) as [s1|]; [|reflexivity].
    cbn [bind]. apply IH.
  - rewrite orb_false_r.
    destruct (is_end_of "report_metadata" event elem
              || is_end_of "policy_published" event elem);
      cbn [parse_records]; rewrite Er; cbn [bind]; apply IH.
Qed.

Lemma parse_metadata_relevant (xmlctx : list step) :
  forall self,
    parse_metadata self (filter is_relevant xmlctx)
    = match parse_metadata self xmlctx with
      | Ok (m, rest) => Ok (m, filter is_relevant rest)
      | Raise e => Raise e
      end.
Proof.
  induction xmlctx as [|st xmlctx IH]; intros self; [reflexivity|].
  destruct st as [event elem|e]; [|reflexivity].
  cbn [filter is_relevant].
  destruct (is_end_of "report_metadata" event elem) eqn:Em;
    destruct (is_end_of "policy_published" event elem) eqn:Ep;
    cbn [orb].
  - cbn [parse_metadata]. rewrite Em, Ep.
    now destruct (read_report_metadata self elem).
  - cbn [parse_metadata]. rewrite Em, Ep.
    destruct (read_report_metadata self elem) as [s1|]; [|reflexivity].
    cbn [bind]. apply IH.
  - cbn [parse_metadata]. rewrite Em, Ep. reflexivity.
  - destruct (is_end_of "record" event elem);
      cbn [parse_metadata]; rewrite Em, Ep; cbn [bind]; apply IH.
Qed.

(** X9. The construction reads the closes of [report_metadata],
    [policy_published] and [record] and nothing else: dropping every other
    event from the stream changes neither the object nor the exception. *)
Theorem construction_reads_three_tags_only (xmlctx : list step) :
  init (filter is_relevant xmlctx) = init xmlctx.
Proof.
  unfold init. rewrite parse_metadata_relevant.
  destruct (parse_metadata new_instance xmlctx) as [[m rest]|];
    [|reflexivity].
  cbn [bind].
  destruct (normalize (report_id m) (organisation m)) as [rid|];
    [|reflexivity].
  cbn [bind]. now rewrite parse_records_relevant.
Qed.

Lemma read_report_metadata_fields (self s1 : DmarcStatistics)
  (elem : Element) :
  read_report_metadata self elem = Ok s1 ->
  organisation s1 = findtext elem ["org_name"]
  /\ report_id s1 = findtext elem ["report_id"]
  /\ timestamp elem ["date_range"; "begin"] = Ok (start s1)
  /\ timestamp elem ["date_range"; "end"] = Ok (end_ s1).
Proof.
  unfold read_report_metadata.
  destruct (timestamp elem ["date_range"; "begin"]) as [st|]; [|discriminate].
  destruct (timestamp elem ["date_range"; "end"]) as [en|]; [|discriminate].
  cbn [bind]. intros [= <-]. now repeat split.
Qed.

(** After phase 1 the metadata fields are those of a [report_metadata]
    element of the metadata section, or they were never assigned. *)
Lemma parse_metadata_provenance (xmlctx : list step) :
  forall self m rest,
    parse_metadata self xmlctx = Ok (m, rest) ->
    (organisation m = organisation self /\ report_id m = report_id self
     /\ start m = start self /\ end_ m = end_ self)
    \/ (exists event elem,
           In (Yield event elem) (metadata_section xmlctx)
           /\ is_end_of "report_metadata" event elem = true
           /\ organisation m = findtext elem ["org_name"]
           /\ report_id m = findtext elem ["report_id"]
           /\ timestamp elem ["date_range"; "begin"] = Ok (start m)
           /\ timestamp elem ["date_range"; "end"] = Ok (end_ m)).
Proof.
  induction xmlctx as [|st xmlctx IH]; intros self m rest H.
  - injection H as <- <-. left. now repeat split.
  - destruct st as [event elem|e]; [|discriminate].
    cbn [parse_metadata] in H. cbn [metadata_section is_policy_end].
    destruct (is_end_of "report_metadata" event elem) eqn:Em.
    + destruct (read_report_metadata self elem) as [s1|] eqn:Es;
        [|discriminate].
      cbn [bind] in H.
      apply read_report_metadata_fields in Es as (Ho & Hi & Hb & He).
      destruct (is_end_of "policy_published" event elem).
      * injection H as <- <-. right. exists event, elem. cbn.
        repeat split; try assumption. now left.
      * apply IH in H as [(Ho' & Hi' & Hb' & He')|
                          (ev & el & Hin & Hrm & Hrest)].
        -- right. exists event, elem.
           split; [now left|]. rewrite Ho', Hi', Hb', He'.
           now repeat split.
        -- right. exists ev, el. split; [now right|]. now split.
    + cbn [bind] in H. destruct (is_end_of "policy_published" event elem).
      * injection H as <- <-. left. now repeat split.
      * apply IH in H as [H|(ev & el & Hin & Hrest)]; [now left|].
        right. exists ev, el. split; [now right|]. exact Hrest.
Qed.

(** X10. A construction succeeds only on a stream whose metadata section
    closes a [report_metadata] with an [org_name] and a [report_id]: the
    object has the organisation and the normalised report id of such an
    element, and its [start] and [end] are what lines 84-91 make of that
    element's [date_range]; the record scan changes none of them. *)
Theorem metadata_comes_from_a_report_metadata_element
  (xmlctx : list step) (r : DmarcStatistics) :
  init xmlctx = Ok r ->
  exists event elem org raw rid,
    In (Yield event elem) (metadata_section xmlctx)
    /\ is_end_of "report_metadata" event elem = true
    /\ findtext elem ["org_name"] = Some org
    /\ findtext elem ["report_id"] = Some raw
    /\ organisation r = Some org
    /\ normalize (Some raw) (Some org) = Ok rid
    /\ report_id r = Some rid
    /\ timestamp elem ["date_range"; "begin"] = Ok (start r)
    /\ timestamp elem ["date_range"; "end"] = Ok (end_ r).
Proof.
  intros H. apply init_stages in H as (m & rid & r0 & Hm & Hn & Hr & _ & _ & ->).
  apply parse_records_tables in Hr as (_ & _ & Ho & Hi & Hs & He & _).
  cbn in Ho, Hi, Hs, He |- *. rewrite Ho, Hi, Hs, He.
  apply parse_metadata_provenance in Hm
    as [(_ & Hid & _)|(event & elem & Hin & Hrm & Horg & Hid & Hb & Hen)].
  - cbn in Hid. rewrite Hid in Hn. discriminate Hn.
  - destruct (organisation m) as [org|] eqn:Eo;
      [|rewrite normalize_absent_organisation in Hn; discriminate Hn].
    destruct (report_id m) as [raw|] eqn:Ei; [|discriminate Hn].
    exists event, elem, org, raw, rid. now repeat split.
Qed.

(** X11. What lines 84-91 make of a timestamp field, for a runtime whose
    [fromtimestamp] raises no [TypeError]: the field of the object is
    absent exactly when the element is missing, and it is a text [s]
    exactly when the element has a text that [int] accepts and whose
    value [fromtimestamp(...).isoformat()] turns into [s].  Every other
    case raises. *)
Theorem timestamp_outcomes (elem : Element) (path : list string) :
  (forall t e, fromtimestamp_isoformat t = Raise e ->
               class_of e <> "TypeError") ->
  (timestamp elem path = Ok None <-> findtext elem path = None)
  /\ (forall s,
         timestamp elem path = Ok (Some s)
         <-> exists t z, findtext elem path = Some t /\ py_int t = Some z
                         /\ fromtimestamp_isoformat z = Ok s).
Proof.
  intros Hrt. unfold timestamp, int, try_except.
  destruct (findtext elem path) as [t|]; cbn [bind].
  - destruct (py_int t) as [z|] eqn:Ei; cbn [bind].
    + destruct (fromtimestamp_isoformat z) as [s0|e] eqn:Ef; cbn [bind].
      * split; [split; discriminate|]. intros s. split.
        -- intros [= <-]. now exists t, z.
        -- intros (t' & z' & [= <-] & Hz & Hs). congruence.
      * pose proof (Hrt _ _ Ef) as Hc. apply String.eqb_neq in Hc.
        rewrite Hc.
        split; [split; discriminate|]. intros s. split; [discriminate|].
        intros (t' & z' & [= <-] & Hz & Hs). congruence.
    + cbn. split; [split; discriminate|]. intros s. split; [discriminate|].
      intros (t' & z' & [= <-] & Hz & _). congruence.
  - cbn. split; [now split|]. intros s. split; [discriminate|].
    intros (t' & z' & Hf & _). discriminate Hf.
Qed.

End Reading.

(* ===================================================================== *)
(** ** Archives and the mailbox loop *)
(* ===================================================================== *)

Section Runs.

Context {runtime : Runtime}.

(** [parse_report] prints one line and returns, or prints nothing and
    raises. *)
Lemma parse_report_outcome (xmlctx : list step) :
  (exists line, parse_report xmlctx = ([line], None))
  \/ (exists e, parse_report xmlctx = ([], Some e)).
Proof.
  unfold parse_report. destruct (init xmlctx) as [r|e].
  - left. now eexists.
  - destruct e; try (right; now eexists). left. now eexists.
Qed.

(** X12. A run of [dump_zip] that ends without an exception has opened
    every entry of the archive and printed exactly one line for each, a
    report or an XML error line, in the order of the archive. *)
Theorem zip_run_prints_one_line_per_entry
  (archive : result (list (result (list step)))) (out : list printed) :
  dump_zip archive = (out, None) ->
  exists entries,
    archive = Ok entries
    /\ List.length out = List.length entries
    /\ Forall2 (fun entry line =>
                  exists xmlctx, entry = Ok xmlctx
                                 /\ parse_report xmlctx = ([line], None))
         entries out.
Proof.
  destruct archive as [entries|e]; [|discriminate].
  cbn [dump_zip]. intros H. exists entries. split; [reflexivity|].
  revert out H. induction entries as [|entry entries IH]; intros out H.
  - injection H as <-. split; [reflexivity | constructor].
  - destruct entry as [xmlctx|e]; [|discriminate].
    cbn [dump_entries] in H.
    destruct (parse_report_outcome xmlctx) as [[line E]|[e E]];
      rewrite E in H; [|discriminate].
    destruct (dump_entries entries) as [outs exc] eqn:Eo.
    injection H as <- ->. destruct (IH outs eq_refl) as [Hlen Hall].
    split; [cbn; now rewrite Hlen|].
    constructor; [|assumption]. now exists xmlctx.
Qed.

(** X13. [dump_zip] reads the entries in order and stops at the first
    exception that leaves an entry: what the entries before it printed is
    kept, and the entries after it are not opened. *)
Theorem zip_entries_run_in_order_until_an_exception
  (before after : list (result (list step))) :
  dump_entries (before ++ after)
  = match dump_entries before with
    | (out, Some e) => (out, Some e)
    | (out, None) =>
        let (outs, exc) := dump_entries after in ((out ++ outs)%list, exc)
    end.
Proof.
  induction before as [|entry before IH].
  - cbn. now destruct (dump_entries after).
  - cbn [app dump_entries]. destruct entry as [xmlctx|e]; [|reflexivity].
    destruct (parse_report xmlctx) as [out [e|]]; [reflexivity|].
    rewrite IH. destruct (dump_entries before) as [o1 [e1|]];
      [reflexivity|].
    destruct (dump_entries after) as [o2 x]. now rewrite app_assoc.
Qed.

Lemma walk_app (parts1 parts2 : list part) :
  walk (parts1 ++ parts2)
  = match walk parts1 with
    | (out, Some e) => (out, Some e)
    | (out, None) =>
        let (outs, exc) := walk parts2 in ((out ++ outs)%list, exc)
    end.
Proof.
  induction parts1 as [|p parts1 IH].
  - cbn. now destruct (walk parts2).
  - cbn [app walk]. destruct (dump_part p) as [out [e|]]; [reflexivity|].
    rewrite IH. destruct (walk parts1) as [o1 [e1|]]; [reflexivity|].
    destruct (walk parts2) as [o2 x]. now rewrite app_assoc.
Qed.

Lemma main_loop_app (messages1 messages2 : list (list part)) :
  main_loop (messages1 ++ messages2)
  = match main_loop messages1 with
    | (out, Some e) => (out, Some e)
    | (out, None) =>
        let (outs, exc) := main_loop messages2 in ((out ++ outs)%list, exc)
    end.
Proof.
  induction messages1 as [|m messages1 IH].
  - cbn. now destruct (main_loop messages2).
  - cbn [app main_loop]. destruct (walk m) as [out [e|]]; [reflexivity|].
    rewrite IH. destruct (main_loop messages1) as [o1 [e1|]];
      [reflexivity|].
    destruct (main_loop messages2) as [o2 x]. now rewrite app_assoc.
Qed.

(** X14. One attachment that raises ends the whole run of [main]: when
    the messages and parts before it ran without an exception, the run ends
    with the exception of that attachment, the console holds what was
    printed up to there, and the parts and messages after it are not
    read. *)
Theorem one_failing_attachment_ends_the_run
  (messages1 messages2 : list (list part)) (parts1 parts2 : list part)
  (p : part) (out1 out2 out : list console) (e : exception) :
  main_loop messages1 = (out1, None) ->
  walk parts1 = (out2, None) ->
  dump_part p = (out, Some e) ->
  main_loop (messages1 ++ (parts1 ++ p :: parts2)%list :: messages2)%list
  = ((out1 ++ out2 ++ out)%list, Some e).
Proof.
  intros H1 H2 H3. rewrite main_loop_app, H1. cbn [main_loop].
  rewrite walk_app, H2. cbn [walk]. now rewrite H3.
Qed.

(** X15. Parts that are neither zip nor gzip never raise: a message that
    has only such parts prints the line for an unknown content type once
    for every part whose type is not one of the three ignored types, in
    order, and nothing else. *)
Theorem parts_that_are_no_archives_never_raise (parts : list part) :
  (forall p, In p parts ->
             in_list (content_type p) CONTENT_ZIP = false
             /\ in_list (content_type p) CONTENT_GZIP = false) ->
  walk parts
  = (map (fun p => UnknownContentType (content_type p))
       (filter (fun p => negb (in_list (content_type p) CONTENT_IGNORE))
          parts),
     None).
Proof.
  induction parts as [|p parts IH]; intros H; [reflexivity|].
  cbn [walk filter]. unfold dump_part.
  destruct (H p (or_introl eq_refl)) as [-> ->].
  rewrite IH by (intros q Hq; apply H; now right).
  now destruct (in_list (content_type p) CONTENT_IGNORE).
Qed.

End Runs.

(* ===================================================================== *)
(** ** The further properties on the example reports *)
(* ===================================================================== *)

Lemma tables_count_sub_results_of_the_policy_domain_witness :
  exists r,
    @init Examples.utc (iterparse Examples.report) = Ok r
    /\ dict_count (Some "fail") (dkimresult r) = 2%Z
    /\ dict_count (Some "pass") (dkimresult r) = 0%Z
    /\ dict_count (Some "softfail") (spfresult r) = 1%Z.
Proof.
  eexists. split; [vm_compute; reflexivity|].
  match goal with
  | |- dict_count _ (dkimresult ?r) = _ /\ _ =>
      pose proof (@tables_count_sub_results_of_the_policy_domain
                    Examples.utc (iterparse Examples.report) r) as T
  end.
  assert (H : @init Examples.utc (iterparse Examples.report) = Ok _)
    by (vm_compute; reflexivity).
  destruct (T H (Some "fail")) as [T1 _].
  destruct (T H (Some "pass")) as [T2 _].
  destruct (T H (Some "softfail")) as [_ T3].
  rewrite T1, T2, T3. vm_compute. now repeat split.
Defined.

Lemma tables_hold_each_label_once_with_a_positive_count_witness :
  exists r,
    @init Examples.utc (iterparse Examples.report) = Ok r
    /\ table_ok (dkimresult r) /\ table_ok (spfresult r).
Proof.
  assert (H : exists r, @init Examples.utc (iterparse Examples.report) = Ok r)
    by (eexists; vm_compute; reflexivity).
  destruct H as [r H]. exists r. split; [exact H|].
  destruct (@tables_hold_each_label_once_with_a_positive_count
              Examples.utc _ _ H) as (Hdk & Hsp & _).
  now split.
Defined.

Lemma labels_are_in_the_order_of_first_appearance_witness :
  exists r,
    @init Examples.utc (iterparse Examples.report) = Ok r
    /\ map fst (spfresult r) = [Some "fail"; Some "softfail"]
    /\ map fst (dkimresult r) = [Some "fail"].
Proof.
  eexists. split; [vm_compute; reflexivity|].
  match goal with
  | |- map fst (spfresult ?r) = _ /\ _ =>
      pose proof (@labels_are_in_the_order_of_first_appearance
                    Examples.utc (iterparse Examples.report) r) as T
  end.
  destruct T as [Tdk Tsp]; [vm_compute; reflexivity|].
  rewrite Tdk, Tsp. vm_compute. now split.
Defined.

Lemma sub_result_without_result_fails_witness :
  exists e,
    @init Examples.utc
      (iterparse
         (Examples.feedback Examples.google_metadata
            [Examples.record_third_party; Examples.record_without_result]))
    = Raise e.
Proof.
  eapply (@sub_result_without_result_fails Examples.utc _ _ _ "dkim"
            (Examples.node "dkim" [Examples.leaf "domain" "example.org"])).
  - vm_compute. reflexivity.
  - now left.
  - cbv. repeat (first [left; reflexivity | right]).
  - reflexivity.
  - reflexivity.
Defined.

Lemma metadata_comes_from_a_report_metadata_element_witness :
  exists r event elem,
    @init Examples.utc (iterparse Examples.report) = Ok r
    /\ In (Yield event elem) (metadata_section (iterparse Examples.report))
    /\ is_end_of "report_metadata" event elem = true
    /\ organisation r = findtext elem ["org_name"].
Proof.
  assert (H : exists r, @init Examples.utc (iterparse Examples.report) = Ok r)
    by (eexists; vm_compute; reflexivity).
  destruct H as [r H].
  destruct (@metadata_comes_from_a_report_metadata_element
              Examples.utc _ _ H)
    as (event & elem & org & raw & rid & Hin & Hrm & Horg & _ & Ho & _).
  exists r, event, elem. repeat split; try assumption. congruence.
Defined.

Lemma utc_raises_no_TypeError (t : Z) (e : exception) :
  Examples.utc_isoformat t = Raise e -> class_of e <> "TypeError".
Proof.
  unfold Examples.utc_isoformat.
  destruct ((t <? -62135596800) || (253402300799 <? t))%Z; [|discriminate].
  intros [= <-]. discriminate.
Qed.

Lemma timestamp_outcomes_witness :
  @timestamp Examples.utc Examples.google_metadata ["date_range"; "begin"]
  = Ok (Some "2021-01-01T00:00:00")
  /\ @timestamp Examples.utc Examples.google_metadata ["date_range"; "until"]
     = Ok None.
Proof.
  destruct (@timestamp_outcomes Examples.utc Examples.google_metadata
              ["date_range"; "begin"] utc_raises_no_TypeError) as [_ Hbegin].
  destruct (@timestamp_outcomes Examples.utc Examples.google_metadata
              ["date_range"; "until"] utc_raises_no_TypeError) as [Huntil _].
  split.
  - apply Hbegin. exists "1609459200", 1609459200%Z.
    repeat split; vm_compute; reflexivity.
  - apply Huntil. reflexivity.
Defined.

Lemma zip_run_prints_one_line_per_entry_witness :
  exists out,
    @dump_zip Examples.utc
      (Ok [Ok (iterparse Examples.report);
           Ok (iterparse Examples.report_empty_org)]) = (out, None)
    /\ List.length out = 2.
Proof.
  eexists. split; [vm_compute; reflexivity|].
  match goal with
  | |- List.length ?out = _ =>
      destruct (@zip_run_prints_one_line_per_entry Examples.utc
                  (Ok [Ok (iterparse Examples.report);
                       Ok (iterparse Examples.report_empty_org)]) out)
        as (entries & E & Hlen & _); [vm_compute; reflexivity|]
  end.
  injection E as <-. exact Hlen.
Defined.

Lemma one_failing_attachment_ends_the_run_witness :
  exists out,
    @main_loop Examples.utc
      [Examples.message_zip; Examples.message_cut_gzip; Examples.message_zip]
    = (out, Some (OtherError "EOFError"))
    /\ List.length out = 3.
Proof.
  eexists. split.
  - apply (@one_failing_attachment_ends_the_run Examples.utc
             [Examples.message_zip] [Examples.message_zip]
             [mkPart "multipart/mixed" (Raise (OtherError "BadZipFile")) []]
             [mkPart "application/gzip" (Raise (OtherError "BadZipFile"))
                (iterparse Examples.report)]
             (mkPart "application/gzip" (Raise (OtherError "BadZipFile"))
                (Examples.truncated 30 Examples.report)));
      vm_compute; reflexivity.
  - vm_compute. reflexivity.
Defined.

Lemma parts_that_are_no_archives_never_raise_witness :
  @walk Examples.utc
    [mkPart "multipart/mixed" (Raise (OtherError "BadZipFile")) [];
     mkPart "text/plain" (Raise (OtherError "BadZipFile")) [];
     mkPart "text/calendar" (Raise (OtherError "BadZipFile")) []]
  = ([UnknownContentType "text/calendar"], None).
Proof.
  apply (@parts_that_are_no_archives_never_raise Examples.utc).
  intros p [<-|[<-|[<-|[]]]]; split; reflexivity.
Defined.
